(** * btctxstore: the control module (btctxstore/control.py)

    A shallow embedding of the data-blob codec, the recoverable-signature
    engine, the broadcast-message framing and the UTXO allocator of
    [btctxstore/control.py], with the properties its specification states.

    Python integers are [Z]; byte strings are [list byte]; text (hex strings,
    disassembled scripts) is [list ascii]; a raised exception is a value of
    [exn]. *)

From Stdlib Require Import ZArith Lia Bool Ascii String List.
From Stdlib Require Import Strings.Byte.
From Stdlib Require Import Permutation Sorted.
Import ListNotations.

Local Open Scope Z_scope.

(** ** Exceptions and results *)

(** The exception classes that can leave the functions modelled here:
    those of [btctxstore.exceptions], the Python built-ins the code can
    meet, and the ones raised by the libraries it calls. *)
Inductive exn : Type :=
| NoNulldataOutput
| NoDataBlob
| NoBroadcastMessage
| MaxDataBlobSizeExceeded (max_data_size data_size : Z)
| ExistingNulldataOutput
| InsufficientFunds (required total : Z)
| InvalidSignarureParameter
| AssertionError
| ZeroDivisionError
| IndexError
| BinasciiError            (* h2b on text that is not an even run of hex digits *)
| BadSignatureError        (* ecdsa.keys.BadSignatureError *)
| BadDigestError           (* ecdsa.keys.BadDigestError *)
| RuntimeError
| ZlibError                (* zlib.error *)
| UnicodeDecodeError
| Exception_ (msg : string).

Inductive result (A : Type) : Type :=
| Ok (a : A)
| Raise (e : exn).
Arguments Ok {A} a.
Arguments Raise {A} e.

Definition bind {A B} (r : result A) (k : A -> result B) : result B :=
  match r with
  | Ok a => k a
  | Raise e => Raise e
  end.

Notation "x <- r ;; k" := (bind r (fun x => k))
  (at level 61, r at next level, right associativity).
Notation "' p <- r ;; k" := (bind r (fun p => k))
  (at level 61, p pattern, r at next level, right associativity).

(** ** Bytes, lengths and slices *)

Definition bytes := list byte.

Definition len {A} (l : list A) : Z := Z.of_nat (length l).

(** [l[:n]] and [l[n:]] for an index [n >= 0] (the only ones the code uses). *)
Definition slice_to {A} (n : Z) (l : list A) : list A := firstn (Z.to_nat n) l.
Definition slice_from {A} (n : Z) (l : list A) : list A := skipn (Z.to_nat n) l.

Definition byte_to_Z (b : byte) : Z := Z.of_N (Byte.to_N b).

Definition byte_of_Z (z : Z) : byte :=
  match Byte.of_N (Z.to_N (z mod 256)) with
  | Some b => b
  | None => x00
  end.

(** [int(math.ceil(n / 20.0))] is computed on integers: for [0 <= n < 2^16]
    the float quotient is exact enough that the ceiling is the integer one. *)
Definition ceil_div (n d : Z) : Z := (n + d - 1) / d.

(** ** Hex text: serialize.data and pycoin's h2b *)

Definition hexdigit (n : Z) : ascii :=
  match n with
  | 0 => "0" | 1 => "1" | 2 => "2" | 3 => "3" | 4 => "4" | 5 => "5" | 6 => "6"
  | 7 => "7" | 8 => "8" | 9 => "9" | 10 => "a" | 11 => "b" | 12 => "c"
  | 13 => "d" | 14 => "e" | _ => "f"
  end%char.

Definition unhexdigit (c : ascii) : option Z :=
  let n := Z.of_N (N_of_ascii c) in
  if (48 <=? n) && (n <=? 57) then Some (n - 48)
  else if (97 <=? n) && (n <=? 102) then Some (n - 87)
  else if (65 <=? n) && (n <=? 70) then Some (n - 55)
  else None.

(** Modelled from the spec: [serialize.data] is not among the sources; the
    codec stores bytes as lower-case hex text, two digits per byte. *)
Definition serialize_data (data : bytes) : list ascii :=
  flat_map (fun b => [hexdigit (byte_to_Z b / 16); hexdigit (byte_to_Z b mod 16)]) data.

(** pycoin's [h2b] ([binascii.unhexlify]): fails on an odd number of digits
    and on a character that is not a hex digit. *)
Fixpoint h2b (h : list ascii) : result bytes :=
  match h with
  | [] => Ok []
  | c1 :: c2 :: rest =>
      match unhexdigit c1, unhexdigit c2 with
      | Some hi, Some lo =>
          tl <- h2b rest ;; Ok (byte_of_Z (hi * 16 + lo) :: tl)
      | _, _ => Raise BinasciiError
      end
  | _ :: [] => Raise BinasciiError
  end.

(** ** common: size prefix and chunking *)

Definition SIZE_PREFIX_BYTES : Z := 2.

(** Modelled from the spec: [common.num_to_bytes] is not among the sources;
    the size prefix is the number written big-endian on [bytes_len] bytes.
    A number that does not fit keeps its low-order bytes. *)
Fixpoint num_to_bytes_nat (bytes_len : nat) (num : Z) : bytes :=
  match bytes_len with
  | O => []
  | S n => num_to_bytes_nat n (num / 256) ++ [byte_of_Z num]
  end.

Definition num_to_bytes (bytes_len : Z) (num : Z) : bytes :=
  num_to_bytes_nat (Z.to_nat bytes_len) num.

(** Modelled from the spec: [common.num_from_bytes] is not among the
    sources; it reads a big-endian number. *)
Definition num_from_bytes (bytes_len : Z) (data : bytes) : Z :=
  fold_left (fun acc b => acc * 256 + byte_to_Z b) data 0.

(** Modelled from the spec: [common.chunks] is not among the sources; it
    cuts [items] into consecutive pieces of [size] elements, the last one
    shorter when the length is not a multiple:
    [[items[i:i+size] for i in range(0, len(items), size)]]. *)
Definition chunks {A} (items : list A) (size : Z) : list (list A) :=
  map (fun k => slice_to size (slice_from (Z.of_nat k * size) items))
      (seq 0 (Z.to_nat (ceil_div (len items) size))).

(** ** Transactions *)

(** An input refers to an output of an earlier transaction. *)
Record TxIn : Type := mkTxIn {
  previous_hash : bytes;
  previous_index : Z
}.

(** An output: its value and its script. The script is kept as the text
    pycoin's [tools.disassemble] prints for it, which is all the code reads. *)
Record TxOut : Type := mkTxOut {
  coin_value : Z;
  script : list ascii
}.

(** The transaction object. Its two lists are the mutable state that
    [add_*] functions update in place. *)
Record Tx : Type := mkTx {
  version : Z;
  txs_in : list TxIn;
  txs_out : list TxOut;
  lock_time : Z
}.

Definition txt (s : string) : list ascii := list_ascii_of_string s.

(** Modelled from the spec: [deserialize.nulldata_txout] is not among the
    sources; it builds the zero-value output whose script disassembles to
    [OP_RETURN <hex>] (what [get_nulldata] strips 10 characters from). *)
Definition nulldata_txout (hexdata : list ascii) : TxOut :=
  mkTxOut 0 (txt "OP_RETURN " ++ hexdata).

(** Modelled from the spec: [deserialize.hash160data_txout] is not among
    the sources; it builds the pay-to-hash shaped output carrying 20 bytes
    and the dust limit as value (what [get_hash160_data] reads characters
    18 to 58 of). *)
Definition hash160data_txout (hexdata : list ascii) (dust_limit : Z) : TxOut :=
  mkTxOut dust_limit
    (txt "OP_DUP OP_HASH160 " ++ hexdata ++ txt " OP_EQUALVERIFY OP_CHECKSIG").

(** [re.match("^OP_RETURN", text)] *)
Fixpoint starts_with (p s : list ascii) : bool :=
  match p, s with
  | [], _ => true
  | _ :: _, [] => false
  | a :: p', b :: s' => Ascii.eqb a b && starts_with p' s'
  end.

(** [a == b] on text. *)
Fixpoint text_eqb (a b : list ascii) : bool :=
  match a, b with
  | [], [] => true
  | x :: a', y :: b' => Ascii.eqb x y && text_eqb a' b'
  | _, _ => false
  end.

Definition is_nulldata (out : TxOut) : bool :=
  starts_with (txt "OP_RETURN") (script out).

(** [l[i]] for an index [i >= 0]. *)
Definition index_list {A} (l : list A) (i : Z) : result A :=
  match nth_error l (Z.to_nat i) with
  | Some a => Ok a
  | None => Raise IndexError
  end.

(** [l[a:b]] for [0 <= a <= b]. *)
Definition slice {A} (a b : Z) (l : list A) : list A :=
  slice_to (b - a) (slice_from a l).

(** [range(n)] *)
Definition range (n : Z) : list Z := map Z.of_nat (seq 0 (Z.to_nat n)).

(** ** The data-blob codec *)

(** A call that updates the transaction in place ends with the transaction
    as the call left it and, when it raised, the exception. The value the
    Python functions return is the transaction object itself. *)
Definition updated : Type := (Tx * option exn)%type.

Fixpoint find_nulldata (index : Z) (outs : list TxOut) : option (Z * TxOut) :=
  match outs with
  | [] => None
  | out :: rest =>
      if is_nulldata out then Some (index, out)
      else find_nulldata (index + 1) rest
  end.

(** [(None, None)] is [None]. *)
Definition _get_nulldata_output (tx : Tx) : option (Z * TxOut) :=
  find_nulldata 0 (txs_out tx).

(** [tx.txs_out.append(out)] *)
Definition append_out (tx : Tx) (out : TxOut) : Tx :=
  mkTx (version tx) (txs_in tx) (txs_out tx ++ [out]) (lock_time tx).

Definition add_nulldata_output (tx : Tx) (nulldata_txout : TxOut) : updated :=
  match _get_nulldata_output tx with
  | Some _ => (tx, Some ExistingNulldataOutput)
  | None => (append_out tx nulldata_txout, None)
  end.

Definition add_hash160data_output (tx : Tx) (hash160data_txout : TxOut) : Tx :=
  append_out tx hash160data_txout.

Definition get_hash160_data (tx : Tx) (output_index : Z) : result bytes :=
  out <- index_list (txs_out tx) output_index ;;
  h2b (slice 18 58 (script out)).

Definition get_nulldata (tx : Tx) : result (Z * bytes) :=
  match _get_nulldata_output tx with
  | None => Raise NoNulldataOutput
  | Some (index, out) =>
      data <- h2b (slice_from 10 (script out)) ;;
      Ok (index, data)
  end.

(** The loop of [get_data_blob]: [data += get_hash160_data(tx, ...)] for
    each [index] in turn. *)
Fixpoint append_hash160_data (tx : Tx) (nulldata_index : Z) (indices : list Z)
    (data : bytes) : result bytes :=
  match indices with
  | [] => Ok data
  | index :: rest =>
      let hash160_index := index + nulldata_index + 1 in
      chunk <- get_hash160_data tx hash160_index ;;
      append_hash160_data tx nulldata_index rest (data ++ chunk)
  end.

Definition get_data_blob (tx : Tx) : result bytes :=
  match get_nulldata tx with
  | Raise NoNulldataOutput => Raise NoDataBlob
  | Raise e => Raise e
  | Ok (nulldata_index, nulldata) =>
      if len nulldata <? SIZE_PREFIX_BYTES then Raise NoDataBlob else
      let size := num_from_bytes SIZE_PREFIX_BYTES
                    (slice_to SIZE_PREFIX_BYTES nulldata) in
      let data := slice_from SIZE_PREFIX_BYTES nulldata in
      if size <? len data then Raise NoDataBlob else
      if size =? len data then Ok data else
      let required_bytes := size - len data in
      let required_hash160_outputs := ceil_div required_bytes 20 in
      if required_hash160_outputs + nulldata_index + 1 >? len (txs_out tx)
      then Raise NoDataBlob else
      data <- append_hash160_data tx nulldata_index
                (range required_hash160_outputs) data ;;
      Ok (slice_to size data)
  end.

Section Codec.

(** [common.MAX_NULLDATA], the capacity of the null-data output; the
    constant is not among the sources. *)
Variable MAX_NULLDATA : Z.

(** [hexdata + '0' * (40 - len(hexdata))] when [len(hexdata) < 40]: the
    last entry is padded to 40 hex digits. *)
Definition pad_hexdata (hexdata : list ascii) : list ascii :=
  if len hexdata <? 40
  then hexdata ++ repeat "0"%char (Z.to_nat (40 - len hexdata))
  else hexdata.

(** The body of the loop of [add_data_blob]. *)
Definition add_chunk (dust_limit : Z) (tx : Tx) (hash160data : bytes) : Tx :=
  let hexdata := serialize_data hash160data in
  let hexdata := pad_hexdata hexdata in
  let hash160data_txout := hash160data_txout hexdata dust_limit in
  add_hash160data_output tx hash160data_txout.

Definition add_data_blob (tx : Tx) (data : bytes) (dust_limit : Z) : updated :=
  let max_data_size := 2 ^ (SIZE_PREFIX_BYTES * 8) in
  if len data >? max_data_size
  then (tx, Some (MaxDataBlobSizeExceeded max_data_size (len data)))
  else
    let size_prefix := num_to_bytes SIZE_PREFIX_BYTES (len data) in
    let data := size_prefix ++ data in
    if len data <=? MAX_NULLDATA
    then add_nulldata_output tx (nulldata_txout (serialize_data data))
    else
      let nulldata := slice_to MAX_NULLDATA data in
      match add_nulldata_output tx (nulldata_txout (serialize_data nulldata)) with
      | (tx, Some e) => (tx, Some e)
      | (tx, None) =>
          (fold_left (add_chunk dust_limit)
             (chunks (slice_from MAX_NULLDATA data) 20) tx, None)
      end.

End Codec.

(** The 20 bytes a carrier output holds for a chunk of at most 20 bytes. *)
Definition pad_chunk (chunk : bytes) : bytes :=
  chunk ++ repeat x00 (20 - length chunk).

(** The carrier output [add_data_blob] appends for a chunk. *)
Definition chunk_txout (dust_limit : Z) (chunk : bytes) : TxOut :=
  hash160data_txout (pad_hexdata (serialize_data chunk)) dust_limit.

(** A transaction without inputs and outputs. *)
Definition empty_tx : Tx := mkTx 1 [] [] 0.

Definition ascii_bytes (s : string) : bytes := list_byte_of_string s.

(** ** Collaborators: keys, the chain service, pycoin *)

Definition address : Type := list ascii.

Module Spendable.
(** An unspent output as the chain service reports it. *)
Record t : Type := mk {
  coin_value : Z;
  tx_hash : bytes;
  tx_out_index : Z
}.
End Spendable.

Module Key.
(** A private-key handle: [key.address()] and [key.secret_exponent()]. *)
Record t : Type := mk {
  address : list ascii;
  secret_exponent : Z
}.
End Key.

(** The chain query service. [send_tx] gives the exception it raised, if any. *)
Class Service : Type := {
  spendables_for_addresses : list address -> list Spendable.t;
  get_tx : bytes -> result Tx;
  send_tx : Tx -> option exn
}.

(** What the code uses of pycoin: the address codec, the hash of signed
    messages, the variable-length integer, transaction signing and the
    transaction id. *)
Class Pycoin : Type := {
  bitcoin_address_to_hash160_sec : address -> bytes -> bytes;
  hash160_sec_to_bitcoin_address : bytes -> bytes -> address;
  public_pair_to_hash160_sec : Z * Z -> bool -> bytes;
  double_sha256 : bytes -> bytes;
  stream_bc_int : Z -> bytes;
  sign_tx_in : Tx -> list Z -> Z -> list ascii -> string -> result Tx;
  Tx_hash : Tx -> bytes
}.

(** [sum(values)] *)
Definition sum (values : list Z) : Z := fold_left Z.add values 0.

(** [a // b] *)
Definition floordiv (a b : Z) : result Z :=
  if b =? 0 then Raise ZeroDivisionError else Ok (a / b).

(** [sorted(items, key=key, reverse=reverse)]: a stable sort, here by
    insertion. Among equal keys the original order is kept, in both
    directions. *)
Section Sorted.
Context {A : Type} (key : A -> Z) (reverse : bool).

Definition before (x y : A) : bool :=
  if reverse then key y <=? key x else key x <=? key y.

Fixpoint insert (x : A) (l : list A) : list A :=
  match l with
  | [] => [x]
  | y :: l' => if before x y then x :: y :: l' else y :: insert x l'
  end.

Definition sorted (items : list A) : list A := fold_right insert [] items.
End Sorted.

Section Allocator.

Context {service : Service} {pycoin : Pycoin}.

Definition _address_to_hash160 (testnet : bool) (address : address) : bytes :=
  let prefix := if testnet then [x6f] else [x00] in
  bitcoin_address_to_hash160_sec address prefix.

Definition _hash160_to_address (testnet : bool) (hash160 : bytes) : address :=
  let prefix := if testnet then [x6f] else [x00] in
  hash160_sec_to_bitcoin_address hash160 prefix.

(** Modelled from the spec: [deserialize.txout] is not among the sources;
    it builds the output that pays [value] to [address]. *)
Definition deserialize_txout (testnet : bool) (address : address) (value : Z)
    : TxOut :=
  mkTxOut value
    (txt "OP_DUP OP_HASH160 "
     ++ serialize_data (_address_to_hash160 testnet address)
     ++ txt " OP_EQUALVERIFY OP_CHECKSIG").

(** Modelled from the spec: [deserialize.txins(serialize.utxos(inputs))]
    is not among the sources; it gives the inputs that spend the given
    spendables, in order. *)
Definition deserialize_txins (inputs : list Spendable.t) : list TxIn :=
  map (fun s => mkTxIn (Spendable.tx_hash s) (Spendable.tx_out_index s)) inputs.

(** The loop of [sign_tx]. *)
Fixpoint sign_tx_loop (netcode : string) (lookup : list Z) (indices : list Z)
    (tx : Tx) : result Tx :=
  match indices with
  | [] => Ok tx
  | txin_idx :: rest =>
      txin <- index_list (txs_in tx) txin_idx ;;
      utxo_tx <- get_tx (previous_hash txin) ;;
      out <- index_list (txs_out utxo_tx) (previous_index txin) ;;
      tx <- sign_tx_in tx lookup txin_idx (script out) netcode ;;
      sign_tx_loop netcode lookup rest tx
  end.

(** pycoin's [build_hash160_lookup] is left to [sign_tx_in], which gets the
    secret exponents. *)
Definition sign_tx (testnet : bool) (tx : Tx) (keys : list Key.t) : result Tx :=
  let netcode := (if testnet then "XTN" else "BTC")%string in
  let secretexponents := map Key.secret_exponent keys in
  let lookup := secretexponents in
  sign_tx_loop netcode lookup (range (len (txs_in tx))) tx.

(** [keys=None] is the empty list: both are false in [if keys]. *)
Definition create_tx (testnet : bool) (txins : list TxIn) (txouts : list TxOut)
    (lock_time : Z) (keys : list Key.t) (publish : bool) : result Tx :=
  let tx := mkTx 1 txins txouts lock_time in
  tx <- (match keys with
         | [] => Ok tx
         | _ :: _ => sign_tx testnet tx keys
         end) ;;
  if publish
  then match send_tx tx with
       | Some e => Raise e
       | None => Ok tx
       end
  else Ok tx.

Definition retrieve_utxos (addresses : list address) : list Spendable.t :=
  let spendables := spendables_for_addresses addresses in
  sorted Spendable.coin_value true spendables.

(** The loop of [find_txins], from the state [(txins, total)]. *)
Fixpoint find_txins_loop (amount : Z) (spendables : list Spendable.t)
    (txins : list TxIn) (total : Z) : list TxIn * Z :=
  match spendables with
  | [] => (txins, total)
  | spendable :: rest =>
      let total := total + Spendable.coin_value spendable in
      let txins := txins ++ [mkTxIn (Spendable.tx_hash spendable)
                                    (Spendable.tx_out_index spendable)] in
      if total >=? amount then (txins, total)
      else find_txins_loop amount rest txins total
  end.

Definition find_txins (addresses : list address) (amount : Z)
    : list TxIn * Z :=
  let spendables := retrieve_utxos addresses in
  find_txins_loop amount spendables [] 0.

(** The loop of [_take_txins]. [stack] is the list [spendables] with its
    last element first, so that [spendables.pop()] takes the head. It
    gives the inputs taken and what is left of the stack. *)
Fixpoint take_loop (maxinput : Z) (stack inputs : list Spendable.t)
    : list Spendable.t * list Spendable.t :=
  let inputs_total := sum (map Spendable.coin_value inputs) in
  if inputs_total >? maxinput then (inputs, stack)
  else match stack with
       | [] => (inputs, stack)
       | s :: stack' => take_loop maxinput stack' (inputs ++ [s])
       end.

(** [_take_txins] empties part of the list it is given: the third
    component is that list after the call. *)
Definition _take_txins (spendables : list Spendable.t)
    (limit max_outputs fee : Z) : list TxIn * Z * list Spendable.t :=
  let maxinput := limit * max_outputs + fee in
  let '(inputs, stack) := take_loop maxinput (rev spendables) [] in
  let inputs_total := sum (map Spendable.coin_value inputs) in
  let txins := deserialize_txins inputs in
  (txins, inputs_total, rev stack).

Definition _enough_to_split (spendables : list Spendable.t) (fee limit : Z)
    : bool :=
  let total := sum (map Spendable.coin_value spendables) in
  total >=? fee + limit * 2.

Definition _filter_dust (spendables : list Spendable.t) (fee limit : Z)
    : list Spendable.t :=
  let spendables := filter (fun s => Spendable.coin_value s >? fee) spendables in
  let spendables := filter (fun s => Spendable.coin_value s >? limit) spendables in
  let spendables := sorted Spendable.coin_value false spendables in
  spendables.

Definition _outputs (testnet : bool) (inputs_total fee max_outputs limit : Z)
    (key : Key.t) : result (list TxOut) :=
  let txouts_total := inputs_total - fee in
  txouts_cnt <- (if txouts_total >? max_outputs * limit
                 then Ok max_outputs
                 else floordiv txouts_total limit) ;;
  txout_amount <- floordiv txouts_total txouts_cnt ;;
  let rounded_amount := txouts_total - txout_amount * txouts_cnt in
  let txouts :=
    map (fun i =>
           let value := if i =? 0 then txout_amount + rounded_amount
                        else txout_amount in
           deserialize_txout testnet (Key.address key) value)
        (range txouts_cnt) in
  if txouts_total =? sum (map coin_value txouts)
  then Ok txouts
  else Raise AssertionError.

(** [split_utxos] calls itself on what [_take_txins] left of the list.
    [fuel] bounds the depth of that recursion; [None] is a run that
    needs more. *)
Fixpoint split_utxos (fuel : nat) (testnet : bool) (key : Key.t)
    (spendables : list Spendable.t) (limit fee max_outputs : Z)
    (publish : bool) : option (result (list bytes)) :=
  match fuel with
  | O => None
  | S fuel =>
      let spendables := _filter_dust spendables fee limit in
      if negb (_enough_to_split spendables fee limit) then Some (Ok [])
      else
        let '(txins, inputs_total, spendables) :=
          _take_txins spendables limit max_outputs fee in
        match _outputs testnet inputs_total fee max_outputs limit key with
        | Raise e => Some (Raise e)
        | Ok txouts =>
            match create_tx testnet txins txouts 0 [key] publish with
            | Raise e => Some (Raise e)
            | Ok tx =>
                match split_utxos fuel testnet key spendables limit fee
                        max_outputs publish with
                | None => None
                | Some (Raise e) => Some (Raise e)
                | Some (Ok rest) => Some (Ok (Tx_hash tx :: rest))
                end
            end
        end
  end.

(** [change_address=None] and the empty string are both false in
    [change_address if change_address else addresses[0]]. *)
Definition add_inputs (testnet : bool) (tx : Tx) (keys : list Key.t)
    (change_address : option address) (fee : Z) : updated :=
  let required := sum (map coin_value (txs_out tx)) + fee in
  let addresses := map Key.address keys in
  let '(txins, total) := find_txins addresses required in
  if total <? required
  then (tx, Some (InsufficientFunds required total))
  else
    let tx := mkTx (version tx) (txs_in tx ++ txins) (txs_out tx) (lock_time tx) in
    let change :=
      match change_address with
      | Some (c :: a) => Ok (c :: a)
      | _ => index_list addresses 0
      end in
    match change with
    | Raise e => (tx, Some e)
    | Ok change_address =>
        let changeout := deserialize_txout testnet change_address
                           (total - required) in
        (append_out tx changeout, None)
    end.

End Allocator.

(** ** Collaborators: python-ecdsa, zlib and the text codec *)

(** What the code uses of python-ecdsa: the curve [curve_secp256k1] and its
    generator, the arithmetic of [ecdsa.ellipticcurve.Point] (whose
    constructor asserts that the point is on the curve and has the given
    order), [numbertheory.inverse_mod] (which asserts that the inverse
    exists), the fixed-width signature encoding, verifying keys and
    deterministic signing. *)
Class Ecdsa : Type := {
  point : Type;
  curve_a : Z;
  curve_b : Z;
  curve_p : Z;
  generator : point;
  order : Z;
  Point : Z -> Z -> Z -> result point;
  point_mul : Z -> point -> point;
  point_add : point -> point -> point;
  point_x : point -> Z;
  point_y : point -> Z;
  inverse_mod : Z -> Z -> result Z;
  sigdecode_string : bytes -> Z -> result (Z * Z);
  VerifyingKey : Type;
  from_public_point : point -> result VerifyingKey;
  verify_digest : VerifyingKey -> bytes -> bytes -> result bool;
  sign_digest_deterministic : Z -> bytes -> result bytes
}.

(** [zlib] and the UTF-8 codec of Python strings. *)
Class Text : Type := {
  zlib_compress : bytes -> Z -> bytes;
  zlib_decompress : bytes -> result bytes;
  encode_utf8 : string -> bytes;
  decode_utf8 : bytes -> result string
}.

(** ** The recoverable-signature engine *)

(** [try: body except AssertionError: ... except InvalidSignarureParameter: ...]
    of [verify_signature]: both handlers return [False]. *)
Definition except_false (body : result bool) : result bool :=
  match body with
  | Raise AssertionError => Ok false
  | Raise InvalidSignarureParameter => Ok false
  | r => r
  end.

Section Signature.

Context {pycoin : Pycoin} {ecdsa : Ecdsa}.

(** [modsqrt.modular_sqrt], a module of the repository that is not among
    the sources. *)
Variable modular_sqrt : Z -> Z -> Z.

(** Modelled from the spec: [util.bytestoint] is not among the sources;
    the digest is read as a big-endian integer. *)
Definition bytestoint (data : bytes) : Z := num_from_bytes (len data) data.

Definition _public_pair_to_address (testnet : bool) (public_pair : Z * Z)
    (compressed : bool) : address :=
  let hash160 := public_pair_to_hash160_sec public_pair compressed in
  _hash160_to_address testnet hash160.

Definition _encode_varint (value : Z) : bytes := stream_bc_int value.

Definition _bitcoin_message_hash (data : bytes) : bytes :=
  let prefix := x18 :: ascii_bytes "Bitcoin Signed Message:" ++ [x0a] in
  let varint := _encode_varint (len data) in
  double_sha256 (prefix ++ varint ++ data).

(** [struct.pack(">B", params)] is one byte; [params] is between 27 and 34. *)
Definition _add_recovery_params (i : Z) (compressed : bool) (sigdata : bytes)
    : bytes :=
  let params := 27 in
  let params := params + i in
  let params := params + (if compressed then 4 else 0) in
  byte_of_Z params :: sigdata.

Definition _recover_public_key (G : point) (order r s i e : Z) : result point :=
  let x := r + (i / 2) * order in
  let alpha := (x * x * x + curve_a * x + curve_b) mod curve_p in
  let beta := modular_sqrt alpha curve_p in
  let y := if (beta - i) mod 2 =? 0 then beta else curve_p - beta in
  R <- Point x y order ;;
  rInv <- inverse_mod r order ;;
  let eNeg := (- e) mod order in
  let Q := point_mul rInv (point_add (point_mul s R) (point_mul eNeg G)) in
  Ok Q.

Definition _parse_signature (sig : bytes) (order : Z)
    : result (bytes * Z * Z * Z * bool) :=
  let rsdata := slice_from 1 sig in
  '(r, s) <- sigdecode_string rsdata order ;;
  first <- index_list sig 0 ;;
  let params := byte_to_Z first - 27 in
  if negb (params =? Z.land params 7) then Raise InvalidSignarureParameter else
  let compressed := negb (Z.land params 4 =? 0) in
  let i := Z.land params 3 in
  Ok (rsdata, r, s, i, compressed).

Definition verify_signature (testnet : bool) (address : address) (sig data : bytes)
    : result bool :=
  except_false (
    let G := generator in
    let order := order in
    '(rsdata, r, s, i, compressed) <- _parse_signature sig order ;;
    let digest := _bitcoin_message_hash data in
    let e := bytestoint digest in
    Q <- _recover_public_key G order r s i e ;;
    pub <- from_public_point Q ;;
    _ <- verify_digest pub rsdata digest ;;
    let public_pair := (point_x Q, point_y Q) in
    let recoveredaddress := _public_pair_to_address testnet public_pair
                              compressed in
    Ok (text_eqb address recoveredaddress)).

(** The inner loop of [sign_data], over the compressed flags still to try:
    the signature it returned, if it did. *)
Fixpoint sign_try_flags (testnet : bool) (address : address) (data sigdata : bytes)
    (i : Z) (flags : list bool) : result (option bytes) :=
  match flags with
  | [] => Ok None
  | compressed :: rest =>
      let sig := _add_recovery_params i compressed sigdata in
      ok <- verify_signature testnet address sig data ;;
      if ok then Ok (Some sig)
      else sign_try_flags testnet address data sigdata i rest
  end.

(** The outer loop of [sign_data], over the recovery ids still to try. *)
Fixpoint sign_try_ids (testnet : bool) (address : address) (data sigdata : bytes)
    (ids : list Z) : result bytes :=
  match ids with
  | [] => Raise (Exception_ "Failed to serialize signature!")
  | i :: rest =>
      found <- sign_try_flags testnet address data sigdata i [true; false] ;;
      match found with
      | Some sig => Ok sig
      | None => sign_try_ids testnet address data sigdata rest
      end
  end.

Definition sign_data (testnet : bool) (data : bytes) (key : Key.t) : result bytes :=
  let address := Key.address key in
  let digest := _bitcoin_message_hash data in
  let secretexponent := Key.secret_exponent key in
  sigdata <- sign_digest_deterministic secretexponent digest ;;
  sign_try_ids testnet address data sigdata (range 4).

End Signature.

(** ** Broadcast messages *)

(** The dictionary [get_broadcast_message] returns. *)
Record BroadcastMessage : Type := mkBroadcastMessage {
  message_address : address;
  message_text : string;
  message_signature : bytes
}.

Section Broadcast.

Context {pycoin : Pycoin} {ecdsa : Ecdsa} {text : Text}.

Variable modular_sqrt : Z -> Z -> Z.

Variable MAX_NULLDATA : Z.

Definition add_broadcast_message (testnet : bool) (tx : Tx) (message : string)
    (sender_key : Key.t) (dust_limit : Z) : updated :=
  let msg_data := encode_utf8 message in
  match sign_data modular_sqrt testnet msg_data sender_key with
  | Raise e => (tx, Some e)
  | Ok signature =>
      let hash160 := _address_to_hash160 testnet (Key.address sender_key) in
      let msg_data := zlib_compress msg_data 9 in
      let data := signature in
      let data := data ++ repeat x00 13 in
      let data := data ++ hash160 in
      let data := data ++ msg_data in
      add_data_blob MAX_NULLDATA tx data dust_limit
  end.

Definition get_broadcast_message (testnet : bool) (tx : Tx)
    : result BroadcastMessage :=
  data <- (match get_data_blob tx with
           | Raise NoDataBlob => Raise NoBroadcastMessage
           | r => r
           end) ;;
  let min_data := 65 + 13 + 20 + 0 in
  if len data <? min_data then Raise NoBroadcastMessage else
  let signature := slice_to 65 data in
  let data := slice_from 65 data in
  let data := slice_from 13 data in
  let address := _hash160_to_address testnet (slice_to 20 data) in
  let msg_data := slice_from 20 data in
  msg_data <- zlib_decompress msg_data ;;
  ok <- verify_signature modular_sqrt testnet address signature msg_data ;;
  if negb ok then Raise NoBroadcastMessage else
  message <- decode_utf8 msg_data ;;
  Ok (mkBroadcastMessage address message signature).

End Broadcast.

(** ** Notions used to state the properties *)

(** The signatures [sign_data] tries, in the order it tries them: recovery
    id 0 to 3 in the outer loop, compressed before uncompressed in the
    inner one. *)
Definition candidates (sigdata : bytes) : list bytes :=
  flat_map (fun i => map (fun compressed => _add_recovery_params i compressed sigdata)
                         [true; false])
    (range 4).

(** The number of null-data outputs of a transaction. *)
Definition count_nulldata (tx : Tx) : nat :=
  length (filter is_nulldata (txs_out tx)).

(** The input that spends a spendable, and the total value of spendables. *)
Definition spend (s : Spendable.t) : TxIn :=
  mkTxIn (Spendable.tx_hash s) (Spendable.tx_out_index s).

Definition value_of (spendables : list Spendable.t) : Z :=
  sum (map Spendable.coin_value spendables).

(** The order [sorted] establishes: ascending keys, or descending ones
    when [reverse] is set. *)
Definition in_order {A : Type} (key : A -> Z) (reverse : bool) (x y : A) : Prop :=
  if reverse then key y <= key x else key x <= key y.

(** The payload behind its size prefix, and how [add_data_blob] divides it
    between the null-data output and the carrier outputs. *)
Definition framed (data : bytes) : bytes :=
  num_to_bytes SIZE_PREFIX_BYTES (len data) ++ data.

Definition nulldata_part (MAX_NULLDATA : Z) (data : bytes) : bytes :=
  if len (framed data) <=? MAX_NULLDATA then framed data
  else slice_to MAX_NULLDATA (framed data).

Definition carried_part (MAX_NULLDATA : Z) (data : bytes) : bytes :=
  if len (framed data) <=? MAX_NULLDATA then []
  else slice_from MAX_NULLDATA (framed data).

(** The exceptions [get_data_blob] can end with. *)
Definition decode_error (e : exn) : Prop := e = NoDataBlob \/ e = BinasciiError.

(** ** Stand-ins for the collaborators

    Small implementations of the collaborators' interfaces, on which the
    functions above can be run. *)
Module Double.

(** A chain service that knows a fixed list of spendables and accepts
    every transaction. *)
Definition fixed_service (spendables : list Spendable.t) : Service := {|
  spendables_for_addresses := fun _ => spendables;
  get_tx := fun _ => Ok (mkTx 1 [] [mkTxOut 0 (txt "OP_1")] 0);
  send_tx := fun _ => None
|}.

(** Bitcoin's variable-length integer. *)
Definition varint (n : Z) : bytes :=
  if n <? 253 then [byte_of_Z n]
  else if n <? 65536 then xfd :: rev (num_to_bytes 2 n)
  else if n <? 4294967296 then xfe :: rev (num_to_bytes 4 n)
  else xff :: rev (num_to_bytes 8 n).

(** An address is the hex text of the prefix and the 20 bytes; the
    "hash" of a public pair is its SEC encoding, filled with zero bytes to
    20 bytes; the digest of a message is one byte, the sum of its bytes. *)
Definition plain_pycoin : Pycoin := {|
  bitcoin_address_to_hash160_sec := fun a _ =>
    match h2b a with
    | Ok (_ :: h) => h
    | _ => []
    end;
  hash160_sec_to_bitcoin_address := fun h prefix => serialize_data (prefix ++ h);
  public_pair_to_hash160_sec := fun '(x, y) compressed =>
    if compressed then byte_of_Z (2 + y mod 2) :: byte_of_Z x :: repeat x00 18
    else x04 :: byte_of_Z x :: byte_of_Z y :: repeat x00 17;
  double_sha256 := fun data => [byte_of_Z (sum (map byte_to_Z data))];
  stream_bc_int := varint;
  sign_tx_in := fun tx _ _ _ _ => Ok tx;
  Tx_hash := fun tx => num_to_bytes 4 (sum (map coin_value (txs_out tx)))
|}.

Definition spendable (value : Z) : Spendable.t :=
  Spendable.mk value (num_to_bytes 4 value) 0.

(** ECDSA as python-ecdsa 0.13 computes it, on the curve [y^2 = x^3 + 7]
    over the integers modulo 211, which has 199 points, with numbers
    written on 32 bytes as for secp256k1. *)
Definition p : Z := 211.
Definition n : Z := 199.

(** A point; [None] is [INFINITY]. *)
Definition pt : Type := option (Z * Z).

Definition G : pt := Some (3, 33).

Definition inv_mod (a m : Z) : result Z :=
  match find (fun x => (a mod m * x) mod m =? 1) (range m) with
  | Some x => Ok x
  | None => Raise AssertionError
  end.

Definition inv_p (a : Z) : Z :=
  match inv_mod a p with
  | Ok x => x
  | Raise _ => 0
  end.

Definition double (P : pt) : pt :=
  match P with
  | None => None
  | Some (x, y) =>
      if (2 * y) mod p =? 0 then None else
      let l := ((3 * x * x) * inv_p (2 * y)) mod p in
      let x3 := (l * l - 2 * x) mod p in
      let y3 := (l * (x - x3) - y) mod p in
      Some (x3, y3)
  end.

Definition add (P Q : pt) : pt :=
  match P, Q with
  | _, None => P
  | None, _ => Q
  | Some (x1, y1), Some (x2, y2) =>
      if x1 =? x2
      then if (y1 + y2) mod p =? 0 then None else double P
      else
        let l := ((y2 - y1) * inv_p (x2 - x1)) mod p in
        let x3 := (l * l - x1 - x2) mod p in
        let y3 := (l * (x1 - x3) - y1) mod p in
        Some (x3, y3)
  end.

Fixpoint mul_pos (k : positive) (P : pt) : pt :=
  match k with
  | xH => P
  | xO k' => double (mul_pos k' P)
  | xI k' => add P (double (mul_pos k' P))
  end.

Definition mul (k : Z) (P : pt) : pt :=
  match k mod n with
  | Zpos k' => mul_pos k' P
  | _ => None
  end.

Definition contains_point (x y : Z) : bool :=
  (y * y - (x * x * x + 7)) mod p =? 0.

Definition new_point (x y order : Z) : result pt :=
  if negb (contains_point x y) then Raise AssertionError
  else if negb (order =? 0)
       then match mul order (Some (x, y)) with
            | None => Ok (Some (x, y))
            | Some _ => Raise AssertionError
            end
       else Ok (Some (x, y)).

Definition x_of (P : pt) : Z := match P with Some (x, _) => x | None => 0 end.
Definition y_of (P : pt) : Z := match P with Some (_, y) => y | None => 0 end.

Definition sigdecode (sig : bytes) (order : Z) : result (Z * Z) :=
  if len sig =? 2 * 32
  then Ok (num_from_bytes 32 (slice_to 32 sig),
           num_from_bytes 32 (slice_from 32 sig))
  else Raise AssertionError.

Definition sigencode (r s : Z) : bytes := num_to_bytes 32 r ++ num_to_bytes 32 s.

(** [Public_key.__init__] *)
Definition public_key (Q : pt) : result pt :=
  match Q with
  | None => Raise RuntimeError
  | Some (x, y) =>
      match mul n Q with
      | Some _ => Raise RuntimeError
      | None =>
          if (x <? 0) || (n <=? x) || (y <? 0) || (n <=? y)
          then Raise RuntimeError
          else Ok Q
      end
  end.

(** [Public_key.verifies] *)
Definition verifies (Q : pt) (hash r s : Z) : bool :=
  if (r <? 1) || (r >? n - 1) then false
  else if (s <? 1) || (s >? n - 1) then false
  else match inv_mod s n with
       | Raise _ => false
       | Ok c =>
           let u1 := (hash * c) mod n in
           let u2 := (r * c) mod n in
           match add (mul u1 G) (mul u2 Q) with
           | None => false
           | Some (x, _) => x mod n =? r
           end
       end.

(** [VerifyingKey.verify_digest] *)
Definition verify (Q : pt) (signature digest : bytes) : result bool :=
  if len digest >? 32 then Raise BadDigestError else
  let number := num_from_bytes (len digest) digest in
  '(r, s) <- sigdecode signature n ;;
  if verifies Q number r s then Ok true else Raise BadSignatureError.

(** [SigningKey.sign_digest_deterministic], with a simple deterministic
    nonce in place of the one of RFC 6979. *)
Definition sign (secexp : Z) (digest : bytes) : result bytes :=
  if negb ((1 <=? secexp) && (secexp <? n)) then Raise AssertionError else
  let hash := num_from_bytes (len digest) digest in
  let k := 1 + (secexp + hash) mod (n - 1) in
  let r := x_of (mul k G) mod n in
  if r =? 0 then Raise RuntimeError else
  c <- inv_mod k n ;;
  let s := (c * ((hash + (secexp * r) mod n) mod n)) mod n in
  if s =? 0 then Raise RuntimeError else
  Ok (sigencode r s).

Definition small_ecdsa : Ecdsa := {|
  point := pt;
  curve_a := 0;
  curve_b := 7;
  curve_p := p;
  generator := G;
  order := n;
  Point := new_point;
  point_mul := mul;
  point_add := add;
  point_x := x_of;
  point_y := y_of;
  inverse_mod := inv_mod;
  sigdecode_string := sigdecode;
  VerifyingKey := pt;
  from_public_point := public_key;
  verify_digest := verify;
  sign_digest_deterministic := sign
|}.

(** The square root modulo a prime [q] with [q mod 4 = 3], and 0 when
    there is none. *)
Definition sqrt_mod (a q : Z) : Z :=
  if (a ^ ((q - 1) / 2)) mod q =? 1 then (a ^ ((q + 1) / 4)) mod q else 0.

(** A zlib stand-in that stores the data after the two header bytes of a
    zlib stream, and a text codec for ASCII. *)
Definition plain_text : Text := {|
  zlib_compress := fun data _ => x78 :: xda :: data;
  zlib_decompress := fun data =>
    match data with
    | x78 :: xda :: rest => Ok rest
    | _ => Raise ZlibError
    end;
  encode_utf8 := list_byte_of_string;
  decode_utf8 := fun data => Ok (string_of_list_byte data)
|}.

(** The key with the given secret exponent; its address is that of its
    compressed public key. *)
Definition key (secexp : Z) : Key.t :=
  let Q := mul secexp G in
  Key.mk (@_public_pair_to_address plain_pycoin false (x_of Q, y_of Q) true)
    secexp.

Definition key1 : Key.t := key 1.

End Double.

(** * Properties *)

(** ** Hex text *)

Lemma h2b_serialize_byte (b : byte) (rest : list ascii) :
  h2b (serialize_data [b] ++ rest) = (tl <- h2b rest ;; Ok (b :: tl)).
Proof. destruct b; reflexivity. Qed.

Lemma serialize_data_cons (b : byte) (data : bytes) :
  serialize_data (b :: data) = serialize_data [b] ++ serialize_data data.
Proof. reflexivity. Qed.

Lemma h2b_serialize_app (data : bytes) (rest : list ascii) :
  h2b (serialize_data data ++ rest) = (tl <- h2b rest ;; Ok (data ++ tl)).
Proof.
  induction data as [|b data IH].
  - change (serialize_data [] ++ rest) with rest.
    destruct (h2b rest); reflexivity.
  - rewrite serialize_data_cons, <- app_assoc, h2b_serialize_byte, IH.
    destruct (h2b rest); reflexivity.
Qed.

Lemma h2b_serialize_data (data : bytes) : h2b (serialize_data data) = Ok data.
Proof.
  rewrite <- (app_nil_r (serialize_data data)), h2b_serialize_app.
  simpl. now rewrite app_nil_r.
Qed.

Lemma h2b_zeros (k : nat) :
  h2b (repeat "0"%char (2 * k)) = Ok (repeat x00 k).
Proof.
  induction k as [|k IH]; [reflexivity|].
  replace (2 * S k)%nat with (S (S (2 * k))) by lia.
  cbn [repeat]. cbn [h2b]. rewrite IH. reflexivity.
Qed.

Lemma serialize_data_length (data : bytes) :
  length (serialize_data data) = (2 * length data)%nat.
Proof.
  induction data as [|b data IH]; [reflexivity|].
  rewrite serialize_data_cons, length_app, IH. simpl. lia.
Qed.

(** ** The size prefix *)

Lemma byte_to_Z_range (b : byte) : 0 <= byte_to_Z b < 256.
Proof. destruct b; vm_compute; split; congruence. Qed.

Lemma byte_to_of_Z (z : Z) : byte_to_Z (byte_of_Z z) = z mod 256.
Proof.
  unfold byte_to_Z, byte_of_Z.
  assert (Hr : 0 <= z mod 256 < 256) by (apply Z.mod_pos_bound; lia).
  destruct (Byte.of_N (Z.to_N (z mod 256))) as [b|] eqn:E.
  - apply Byte.to_of_N in E. rewrite E. lia.
  - apply Byte.of_N_None_iff in E. lia.
Qed.

Lemma num_to_bytes_nat_length (n : nat) (num : Z) :
  length (num_to_bytes_nat n num) = n.
Proof.
  revert num; induction n as [|n IH]; intros num; [reflexivity|].
  cbn [num_to_bytes_nat]. rewrite length_app, IH. simpl. lia.
Qed.

Lemma num_from_bytes_snoc (k : Z) (data : bytes) (b : byte) :
  num_from_bytes k (data ++ [b]) = num_from_bytes k data * 256 + byte_to_Z b.
Proof. unfold num_from_bytes. now rewrite fold_left_app. Qed.

Lemma num_from_to_bytes_nat (k : Z) (n : nat) (num : Z) :
  0 <= num < 256 ^ Z.of_nat n ->
  num_from_bytes k (num_to_bytes_nat n num) = num.
Proof.
  revert num; induction n as [|n IH]; intros num Hnum.
  - change (256 ^ Z.of_nat 0) with 1 in Hnum.
    assert (num = 0) by lia. subst. reflexivity.
  - cbn [num_to_bytes_nat]. rewrite num_from_bytes_snoc, byte_to_of_Z, IH.
    + pose proof (Z.div_mod num 256). lia.
    + rewrite Nat2Z.inj_succ, Z.pow_succ_r in Hnum by lia.
      split; [apply Z.div_pos; lia | apply Z.div_lt_upper_bound; lia].
Qed.

Lemma size_prefix_length (num : Z) :
  len (num_to_bytes SIZE_PREFIX_BYTES num) = SIZE_PREFIX_BYTES.
Proof. unfold len, num_to_bytes. now rewrite num_to_bytes_nat_length. Qed.

Lemma size_prefix_roundtrip (num : Z) :
  0 <= num < 2 ^ (SIZE_PREFIX_BYTES * 8) ->
  num_from_bytes SIZE_PREFIX_BYTES (num_to_bytes SIZE_PREFIX_BYTES num) = num.
Proof. intros H. apply num_from_to_bytes_nat. exact H. Qed.

(** ** Chunks *)

Lemma len_nonneg {A} (l : list A) : 0 <= len l.
Proof. unfold len. lia. Qed.

Lemma ceil_div_zero (d : Z) : 0 < d -> ceil_div 0 d = 0.
Proof. intros Hd. unfold ceil_div. apply Z.div_small. lia. Qed.

Lemma ceil_div_small (n d : Z) : 0 < n <= d -> ceil_div n d = 1.
Proof.
  intros H. unfold ceil_div.
  replace (n + d - 1) with (n - 1 + 1 * d) by lia.
  rewrite Z.div_add by lia. rewrite Z.div_small; lia.
Qed.

Lemma ceil_div_step (n d : Z) : 0 < d -> ceil_div (n + d) d = ceil_div n d + 1.
Proof.
  intros Hd. unfold ceil_div.
  replace (n + d + d - 1) with (n + d - 1 + 1 * d) by lia.
  now rewrite Z.div_add by lia.
Qed.

Lemma ceil_div_nonneg (n d : Z) : 0 <= n -> 0 < d -> 0 <= ceil_div n d.
Proof. intros. unfold ceil_div. apply Z.div_pos; lia. Qed.

Lemma chunks_nil {A} (size : Z) : 0 < size -> chunks (@nil A) size = [].
Proof.
  intros Hs. unfold chunks. change (len (@nil A)) with 0.
  now rewrite ceil_div_zero.
Qed.

Lemma chunks_cons {A} (l : list A) (size : Z) :
  0 < size -> l <> [] ->
  chunks l size = slice_to size l :: chunks (slice_from size l) size.
Proof.
  intros Hs Hl. unfold chunks.
  assert (Hlen : 0 < len l) by (unfold len; destruct l; [congruence | simpl; lia]).
  assert (Hc : Z.to_nat (ceil_div (len l) size)
               = S (Z.to_nat (ceil_div (len (slice_from size l)) size))).
  { unfold slice_from, len at 2. rewrite length_skipn.
    destruct (Z_le_gt_dec (len l) size) as [Hle|Hgt].
    - replace (length l - Z.to_nat size)%nat with 0%nat by (unfold len in *; lia).
      change (Z.of_nat 0) with 0.
      rewrite ceil_div_small, ceil_div_zero by lia. reflexivity.
    - replace (len l) with (Z.of_nat (length l - Z.to_nat size) + size)
        by (unfold len in *; lia).
      rewrite ceil_div_step by lia.
      pose proof (ceil_div_nonneg (Z.of_nat (length l - Z.to_nat size)) size).
      lia. }
  rewrite Hc. cbn [seq map]. f_equal.
  rewrite <- seq_shift, map_map. apply map_ext. intros k.
  unfold slice_from. rewrite skipn_skipn. do 2 f_equal. lia.
Qed.

Lemma chunks_ind {A} (size : Z) (P : list A -> Prop) :
  0 < size ->
  P [] ->
  (forall l, l <> [] -> P (slice_from size l) -> P l) ->
  forall l, P l.
Proof.
  intros Hs Hnil Hstep l.
  remember (length l) as n eqn:Hn.
  revert l Hn. induction n as [n IH] using lt_wf_ind. intros l Hn.
  destruct l as [|a l]; [exact Hnil|].
  apply Hstep; [congruence|].
  apply (IH (length (slice_from size (a :: l)))); [|reflexivity].
  unfold slice_from. rewrite length_skipn. subst n. simpl length. lia.
Qed.

(** ** Carrier outputs *)

Lemma chunks_concat_padded (l : bytes) :
  exists k, concat (map pad_chunk (chunks l 20)) = l ++ repeat x00 k.
Proof.
  pattern l. apply (chunks_ind 20); [lia | | clear l; intros l Hl [k IH]].
  - exists 0%nat. now rewrite chunks_nil by lia.
  - rewrite chunks_cons by (lia || assumption). cbn [map concat].
    unfold slice_to, slice_from in *. change (Z.to_nat 20) with 20%nat in *.
    destruct (Nat.le_gt_cases 20 (length l)) as [Hge|Hlt].
    + exists k. rewrite IH. unfold pad_chunk.
      rewrite length_firstn, Nat.min_l by lia. cbn [Nat.sub repeat].
      rewrite app_nil_r, app_assoc, firstn_skipn. reflexivity.
    + exists (20 - length l)%nat.
      rewrite skipn_all2 by lia. rewrite chunks_nil by lia. cbn [map concat].
      rewrite app_nil_r, firstn_all2 by lia. reflexivity.
Qed.

Lemma chunks_length_le (l : bytes) :
  Forall (fun c => (length c <= 20)%nat) (chunks l 20).
Proof.
  unfold chunks. apply Forall_map, Forall_forall. intros k _.
  unfold slice_to. rewrite length_firstn. change (Z.to_nat 20) with 20%nat. lia.
Qed.

Lemma chunks_length {A} (l : list A) (size : Z) :
  len (chunks l size) = Z.of_nat (Z.to_nat (ceil_div (len l) size)).
Proof. unfold chunks, len at 1. now rewrite length_map, length_seq. Qed.

Lemma pad_hexdata_serialize (chunk : bytes) :
  (length chunk <= 20)%nat ->
  pad_hexdata (serialize_data chunk)
  = serialize_data chunk ++ repeat "0"%char (2 * (20 - length chunk)).
Proof.
  intros Hc. unfold pad_hexdata, len. rewrite serialize_data_length.
  destruct (Z.ltb_spec (Z.of_nat (2 * length chunk)) 40) as [Hlt|Hge].
  - f_equal. f_equal. lia.
  - replace (20 - length chunk)%nat with 0%nat by lia.
    now rewrite app_nil_r.
Qed.

Lemma pad_hexdata_length (chunk : bytes) :
  (length chunk <= 20)%nat ->
  length (pad_hexdata (serialize_data chunk)) = 40%nat.
Proof.
  intros Hc. rewrite pad_hexdata_serialize by exact Hc.
  rewrite length_app, serialize_data_length, repeat_length. lia.
Qed.

(** Reading a carrier output gives back the chunk and its zero padding. *)
Lemma chunk_txout_data (dust_limit : Z) (chunk : bytes) :
  (length chunk <= 20)%nat ->
  h2b (slice 18 58 (script (chunk_txout dust_limit chunk))) = Ok (pad_chunk chunk).
Proof.
  intros Hc. unfold chunk_txout, hash160data_txout, slice, slice_from, slice_to.
  cbn [script]. change (Z.to_nat 18) with (length (txt "OP_DUP OP_HASH160 ")).
  rewrite skipn_app, Nat.sub_diag, skipn_all. cbn [skipn app].
  change (Z.to_nat (58 - 18)) with 40%nat.
  rewrite <- (pad_hexdata_length chunk Hc) at 1.
  rewrite firstn_app, Nat.sub_diag, firstn_all. cbn [firstn]. rewrite app_nil_r.
  rewrite pad_hexdata_serialize, h2b_serialize_app, h2b_zeros by exact Hc.
  reflexivity.
Qed.

Lemma chunk_txout_not_nulldata (dust_limit : Z) (chunk : bytes) :
  is_nulldata (chunk_txout dust_limit chunk) = false.
Proof. reflexivity. Qed.

Lemma nulldata_txout_is_nulldata (hexdata : list ascii) :
  is_nulldata (nulldata_txout hexdata) = true.
Proof. reflexivity. Qed.

Lemma nulldata_txout_data (data : bytes) :
  h2b (slice_from 10 (script (nulldata_txout (serialize_data data)))) = Ok data.
Proof. apply h2b_serialize_data. Qed.

(** ** Locating the null-data output *)

Lemma find_nulldata_app_none (index : Z) (outs : list TxOut) (out : TxOut)
    (rest : list TxOut) :
  find_nulldata index outs = None ->
  is_nulldata out = true ->
  find_nulldata index (outs ++ out :: rest) = Some (index + len outs, out).
Proof.
  revert index. induction outs as [|o outs IH]; intros index Hnone Hout.
  - cbn [app find_nulldata]. rewrite Hout. f_equal. f_equal. unfold len. simpl. lia.
  - cbn [app find_nulldata] in Hnone |- *. destruct (is_nulldata o); [discriminate|].
    rewrite IH by assumption. f_equal. f_equal. unfold len. simpl length. lia.
Qed.

Lemma find_nulldata_some_app (index : Z) (outs rest : list TxOut) p :
  find_nulldata index outs = Some p ->
  find_nulldata index (outs ++ rest) = Some p.
Proof.
  revert index. induction outs as [|o outs IH]; intros index H; [discriminate|].
  cbn [app find_nulldata] in H |- *.
  destruct (is_nulldata o); [exact H|]. now apply IH.
Qed.

Lemma find_nulldata_none_forall (index : Z) (outs : list TxOut) :
  find_nulldata index outs = None <-> Forall (fun o => is_nulldata o = false) outs.
Proof.
  revert index. induction outs as [|o outs IH]; intros index; cbn [find_nulldata].
  - split; [constructor | reflexivity].
  - destruct (is_nulldata o) eqn:E.
    + split; [discriminate | intros H; inversion H; congruence].
    + rewrite IH. split; [now constructor | intros H; now inversion H].
Qed.

(** ** Encoding appends, decoding concatenates *)

Lemma fold_add_chunk (dust_limit : Z) (cs : list bytes) (tx : Tx) :
  fold_left (add_chunk dust_limit) cs tx
  = mkTx (version tx) (txs_in tx)
      (txs_out tx ++ map (chunk_txout dust_limit) cs) (lock_time tx).
Proof.
  revert tx. induction cs as [|c cs IH]; intros tx; cbn [fold_left map].
  - rewrite app_nil_r. now destruct tx.
  - rewrite IH. unfold add_chunk, add_hash160data_output, append_out.
    cbn [version txs_in txs_out lock_time]. now rewrite <- app_assoc.
Qed.

Lemma append_hash160_data_chunks (dust_limit : Z) (tx : Tx)
    (nulldata_index : Z) (cs : list bytes) :
  Forall (fun c => (length c <= 20)%nat) cs ->
  forall (front : list TxOut) (j : nat) (data : bytes),
  txs_out tx = front ++ map (chunk_txout dust_limit) cs ->
  len front = Z.of_nat j + nulldata_index + 1 ->
  append_hash160_data tx nulldata_index (map Z.of_nat (seq j (length cs))) data
  = Ok (data ++ concat (map pad_chunk cs)).
Proof.
  induction 1 as [|c cs Hc _ IH]; intros front j data Houts Hfront.
  - cbn. now rewrite app_nil_r.
  - cbn [length seq map append_hash160_data concat].
    unfold get_hash160_data, index_list. rewrite <- Hfront, Houts.
    unfold len. rewrite Nat2Z.id. cbn [map].
    rewrite nth_error_app2, Nat.sub_diag by lia. cbn [nth_error bind].
    rewrite chunk_txout_data by exact Hc. cbn [bind].
    rewrite (IH (front ++ [chunk_txout dust_limit c])).
    + now rewrite <- app_assoc.
    + rewrite Houts. cbn [map]. now rewrite <- app_assoc.
    + unfold len in *. rewrite length_app. simpl length. lia.
Qed.

Lemma get_nulldata_appended (tx : Tx) (nulldata : bytes) (rest : list TxOut) :
  _get_nulldata_output tx = None ->
  get_nulldata (mkTx (version tx) (txs_in tx)
                  (txs_out tx ++ nulldata_txout (serialize_data nulldata) :: rest)
                  (lock_time tx))
  = Ok (len (txs_out tx), nulldata).
Proof.
  intros Hnone. unfold get_nulldata, _get_nulldata_output in *. cbn [txs_out].
  rewrite (find_nulldata_app_none 0 _ _ _ Hnone (nulldata_txout_is_nulldata _)).
  rewrite nulldata_txout_data. reflexivity.
Qed.

Lemma framed_prefix (data : bytes) :
  0 <= len data < 2 ^ (SIZE_PREFIX_BYTES * 8) ->
  num_from_bytes SIZE_PREFIX_BYTES
    (slice_to SIZE_PREFIX_BYTES (num_to_bytes SIZE_PREFIX_BYTES (len data) ++ data))
  = len data
  /\ slice_from SIZE_PREFIX_BYTES (num_to_bytes SIZE_PREFIX_BYTES (len data) ++ data)
     = data.
Proof.
  intros Hlen. pose proof (size_prefix_length (len data)) as Hp.
  unfold slice_to, slice_from, len in Hp |- *.
  assert (Hn : Z.to_nat SIZE_PREFIX_BYTES
               = length (num_to_bytes SIZE_PREFIX_BYTES (Z.of_nat (length data))))
    by lia.
  rewrite Hn, firstn_app, Nat.sub_diag, firstn_all, skipn_app, Nat.sub_diag,
    skipn_all.
  cbn [firstn skipn app]. rewrite app_nil_r. split; [|reflexivity].
  now apply size_prefix_roundtrip.
Qed.

(** C1. Encoding a payload of at most 65535 bytes into a transaction that
    has no null-data output, and decoding the transaction [add_data_blob]
    leaves, gives back exactly the payload, for every dust limit: the zero
    padding of the last carrier output is cut off by the declared size.
    [MAX_NULLDATA] must leave room for the two-byte size prefix. *)
Theorem data_blob_roundtrip (MAX_NULLDATA : Z) (tx : Tx) (data : bytes)
    (dust_limit : Z) :
  SIZE_PREFIX_BYTES <= MAX_NULLDATA ->
  _get_nulldata_output tx = None ->
  len data <= 65535 ->
  exists tx',
    add_data_blob MAX_NULLDATA tx data dust_limit = (tx', None)
    /\ get_data_blob tx' = Ok data.
Proof.
  intros Hmax Hnone Hlen.
  pose proof (len_nonneg data) as Hnn.
  assert (Hsp : SIZE_PREFIX_BYTES = 2) by reflexivity.
  assert (Hrange : 0 <= len data < 2 ^ (SIZE_PREFIX_BYTES * 8))
    by (change (2 ^ (SIZE_PREFIX_BYTES * 8)) with 65536; lia).
  destruct (framed_prefix data Hrange) as [Hsize Hstrip].
  unfold add_data_blob.
  change (2 ^ (SIZE_PREFIX_BYTES * 8)) with 65536.
  destruct (Z.gtb_spec (len data) 65536) as [Hgt|_]; [lia|].
  set (framed := num_to_bytes SIZE_PREFIX_BYTES (len data) ++ data) in *.
  assert (Hframed : len framed = SIZE_PREFIX_BYTES + len data).
  { unfold framed, len. rewrite length_app.
    pose proof (size_prefix_length (len data)). unfold len in *. lia. }
  unfold add_nulldata_output. rewrite Hnone.
  destruct (Z.leb_spec (len framed) MAX_NULLDATA) as [Hfit|Hbig].
  - (* the null-data output holds the whole framed blob *)
    eexists. split; [reflexivity|].
    unfold get_data_blob, append_out.
    rewrite get_nulldata_appended by exact Hnone.
    destruct (Z.ltb_spec (len framed) SIZE_PREFIX_BYTES) as [Hlt|_]; [lia|].
    rewrite Hsize, Hstrip, Z.ltb_irrefl, Z.eqb_refl. reflexivity.
  - (* the remainder goes to carrier outputs *)
    eexists. split; [reflexivity|].
    rewrite fold_add_chunk. unfold append_out.
    cbn [version txs_in txs_out lock_time].
    rewrite <- app_assoc. cbn [app].
    set (nulldata := slice_to MAX_NULLDATA framed).
    set (rest := slice_from MAX_NULLDATA framed).
    assert (Hsplit : framed = nulldata ++ rest)
      by (unfold nulldata, rest, slice_to, slice_from; now rewrite firstn_skipn).
    assert (Hnl : len nulldata = MAX_NULLDATA).
    { unfold nulldata, slice_to, len in *. rewrite length_firstn. lia. }
    assert (Hrl : len rest = len framed - MAX_NULLDATA).
    { unfold rest, slice_from, len in *. rewrite length_skipn. lia. }
    assert (Hpre : slice_to SIZE_PREFIX_BYTES nulldata
                   = slice_to SIZE_PREFIX_BYTES framed).
    { rewrite Hsplit. unfold slice_to, len in *.
      rewrite firstn_app.
      replace (Z.to_nat SIZE_PREFIX_BYTES - length nulldata)%nat with 0%nat by lia.
      cbn [firstn]. now rewrite app_nil_r. }
    assert (Hdata : data = slice_from SIZE_PREFIX_BYTES nulldata ++ rest).
    { rewrite <- Hstrip at 1. rewrite Hsplit. unfold slice_from, len in *.
      rewrite skipn_app.
      replace (Z.to_nat SIZE_PREFIX_BYTES - length nulldata)%nat with 0%nat by lia.
      reflexivity. }
    set (data0 := slice_from SIZE_PREFIX_BYTES nulldata) in *.
    assert (Hd0 : len data0 = MAX_NULLDATA - SIZE_PREFIX_BYTES).
    { unfold data0, slice_from, len in *. rewrite length_skipn. lia. }
    unfold get_data_blob.
    rewrite get_nulldata_appended by exact Hnone.
    rewrite Hnl. destruct (Z.ltb_spec MAX_NULLDATA SIZE_PREFIX_BYTES); [lia|].
    rewrite Hpre, Hsize. fold data0. rewrite Hd0.
    destruct (Z.ltb_spec (len data) (MAX_NULLDATA - SIZE_PREFIX_BYTES)); [lia|].
    destruct (Z.eqb_spec (len data) (MAX_NULLDATA - SIZE_PREFIX_BYTES)); [lia|].
    replace (len data - (MAX_NULLDATA - SIZE_PREFIX_BYTES)) with (len rest) by lia.
    cbn [txs_out].
    assert (Hcnt : len (txs_out tx ++ nulldata_txout (serialize_data nulldata)
                          :: map (chunk_txout dust_limit) (chunks rest 20))
                   = ceil_div (len rest) 20 + len (txs_out tx) + 1).
    { pose proof (ceil_div_nonneg (len rest) 20 (len_nonneg rest) eq_refl) as Hcn.
      unfold len at 1. rewrite length_app. cbn [length].
      rewrite length_map. unfold chunks. rewrite length_map, length_seq.
      unfold len in Hcn |- *. lia. }
    rewrite Hcnt.
    destruct (Z.gtb_spec (ceil_div (len rest) 20 + len (txs_out tx) + 1)
                (ceil_div (len rest) 20 + len (txs_out tx) + 1)); [lia|].
    unfold range.
    replace (Z.to_nat (ceil_div (len rest) 20)) with (length (chunks rest 20))
      by (unfold chunks; now rewrite length_map, length_seq).
    rewrite (append_hash160_data_chunks dust_limit _ _ (chunks rest 20)
               (chunks_length_le rest)
               (txs_out tx ++ [nulldata_txout (serialize_data nulldata)]) 0 data0).
    + cbn [bind]. destruct (chunks_concat_padded rest) as [k Hk]. rewrite Hk.
      rewrite app_assoc, <- Hdata. unfold slice_to, len.
      rewrite Nat2Z.id, firstn_app, Nat.sub_diag, firstn_all. cbn [firstn].
      now rewrite app_nil_r.
    + cbn [txs_out]. now rewrite <- app_assoc.
    + unfold len. rewrite length_app. simpl length. lia.
Qed.

Lemma data_blob_roundtrip_witness :
  exists tx',
    add_data_blob 40 empty_tx
      (ascii_bytes "a payload longer than thirty-eight bytes, padded at its end") 548
    = (tx', None)
    /\ get_data_blob tx'
       = Ok (ascii_bytes "a payload longer than thirty-eight bytes, padded at its end").
Proof.
  apply (data_blob_roundtrip 40 empty_tx
           (ascii_bytes "a payload longer than thirty-eight bytes, padded at its end")
           548).
  - vm_compute. discriminate.
  - reflexivity.
  - vm_compute. discriminate.
Defined.

(** ** The size check of add_data_blob *)

(** X2. A payload of more than 65536 bytes is refused with
    [MaxDataBlobSizeExceeded(65536, len(data))] and the transaction is left
    as it was. *)
Lemma add_data_blob_too_long (MAX_NULLDATA : Z) (tx : Tx) (data : bytes)
    (dust_limit : Z) :
  65536 < len data ->
  add_data_blob MAX_NULLDATA tx data dust_limit
  = (tx, Some (MaxDataBlobSizeExceeded 65536 (len data))).
Proof.
  intros H. unfold add_data_blob.
  change (2 ^ (SIZE_PREFIX_BYTES * 8)) with 65536.
  destruct (Z.gtb_spec (len data) 65536); [reflexivity | lia].
Qed.

Lemma add_data_blob_too_long_witness :
  add_data_blob 40 empty_tx (repeat x00 (Z.to_nat 65537)) 548
  = (empty_tx, Some (MaxDataBlobSizeExceeded 65536 65537)).
Proof.
  assert (H : len (repeat x00 (Z.to_nat 65537)) = 65537)
    by (vm_compute; reflexivity).
  rewrite <- H at 2.
  apply (add_data_blob_too_long 40 empty_tx (repeat x00 (Z.to_nat 65537)) 548).
  rewrite H. reflexivity.
Defined.

Lemma add_data_blob_size_ok (MAX_NULLDATA : Z) (tx : Tx) (data : bytes)
    (dust_limit : Z) :
  len data <= 65536 ->
  snd (add_data_blob MAX_NULLDATA tx data dust_limit) = None
  \/ snd (add_data_blob MAX_NULLDATA tx data dust_limit)
     = Some ExistingNulldataOutput.
Proof.
  intros H. unfold add_data_blob.
  change (2 ^ (SIZE_PREFIX_BYTES * 8)) with 65536.
  destruct (Z.gtb_spec (len data) 65536); [lia|].
  unfold add_nulldata_output.
  destruct (_ <=? _); destruct (_get_nulldata_output tx); cbn; auto.
Qed.

(** C4, at the payload of 65536 bytes. The size check compares the length
    with [2 ** 16] using [>], so a payload of exactly 65536 bytes, one more
    than a two-byte prefix can declare, is not refused with
    [MaxDataBlobSizeExceeded]: the call goes on to write the prefix. *)
Theorem add_data_blob_65536_not_refused (MAX_NULLDATA : Z) (tx : Tx)
    (data : bytes) (dust_limit : Z) :
  len data = 65536 ->
  snd (add_data_blob MAX_NULLDATA tx data dust_limit) = None
  \/ snd (add_data_blob MAX_NULLDATA tx data dust_limit)
     = Some ExistingNulldataOutput.
Proof. intros H. apply add_data_blob_size_ok. lia. Qed.

Lemma add_data_blob_65536_not_refused_witness :
  len (repeat x00 (Z.to_nat 65536)) = 65536
  /\ (snd (add_data_blob 40 empty_tx (repeat x00 (Z.to_nat 65536)) 548) = None
      \/ snd (add_data_blob 40 empty_tx (repeat x00 (Z.to_nat 65536)) 548)
         = Some ExistingNulldataOutput).
Proof.
  assert (H : len (repeat x00 (Z.to_nat 65536)) = 65536)
    by (vm_compute; reflexivity).
  split; [exact H|].
  exact (add_data_blob_65536_not_refused 40 empty_tx
           (repeat x00 (Z.to_nat 65536)) 548 H).
Defined.

(** ** Sums and sorting *)

Lemma fold_left_add_acc (l : list Z) (acc : Z) :
  fold_left Z.add l acc = acc + fold_left Z.add l 0.
Proof.
  revert acc. induction l as [|x l IH]; intros acc; cbn [fold_left]; [lia|].
  rewrite (IH (acc + x)), (IH (0 + x)). lia.
Qed.

Lemma sum_nil : sum [] = 0.
Proof. reflexivity. Qed.

Lemma sum_cons (x : Z) (l : list Z) : sum (x :: l) = x + sum l.
Proof. unfold sum. cbn [fold_left]. rewrite fold_left_add_acc. lia. Qed.

Lemma sum_app (l1 l2 : list Z) : sum (l1 ++ l2) = sum l1 + sum l2.
Proof.
  induction l1 as [|x l1 IH]; [reflexivity|].
  cbn [app]. rewrite !sum_cons, IH. lia.
Qed.

Lemma sum_rev (l : list Z) : sum (rev l) = sum l.
Proof.
  induction l as [|x l IH]; [reflexivity|].
  cbn [rev]. rewrite sum_app, !sum_cons, IH, sum_nil. lia.
Qed.

Lemma sum_repeat (x : Z) (n : nat) : sum (repeat x n) = Z.of_nat n * x.
Proof.
  induction n as [|n IH]; [reflexivity|].
  cbn [repeat]. rewrite sum_cons, IH. lia.
Qed.

Section SortedFacts.
Context {A : Type} (key : A -> Z) (reverse : bool).

Lemma insert_length (x : A) (l : list A) :
  length (insert key reverse x l) = S (length l).
Proof.
  induction l as [|y l IH]; [reflexivity|].
  cbn [insert]. destruct (before key reverse x y); cbn [length]; congruence.
Qed.

Lemma sorted_length (l : list A) : length (sorted key reverse l) = length l.
Proof.
  induction l as [|x l IH]; [reflexivity|].
  cbn [sorted fold_right]. fold (sorted key reverse l).
  now rewrite insert_length, IH.
Qed.

Lemma insert_In (x y : A) (l : list A) :
  In y (insert key reverse x l) <-> y = x \/ In y l.
Proof.
  induction l as [|z l IH]; cbn [insert In].
  - intuition congruence.
  - destruct (before key reverse x z); cbn [In]; rewrite ?IH; intuition congruence.
Qed.

Lemma sorted_In (y : A) (l : list A) : In y (sorted key reverse l) <-> In y l.
Proof.
  induction l as [|x l IH]; [reflexivity|].
  cbn [sorted fold_right]. fold (sorted key reverse l).
  rewrite insert_In, IH. cbn [In]. intuition congruence.
Qed.

Lemma insert_sum (x : A) (l : list A) :
  sum (map key (insert key reverse x l)) = key x + sum (map key l).
Proof.
  induction l as [|y l IH].
  - cbn [insert map]. rewrite sum_cons. reflexivity.
  - cbn [insert]. destruct (before key reverse x y); cbn [map];
      rewrite !sum_cons; [reflexivity|]. rewrite IH. lia.
Qed.

Lemma sorted_sum (l : list A) :
  sum (map key (sorted key reverse l)) = sum (map key l).
Proof.
  induction l as [|x l IH]; [reflexivity|].
  cbn [sorted fold_right map]. fold (sorted key reverse l).
  now rewrite insert_sum, sum_cons, IH.
Qed.
End SortedFacts.

(** ** The outputs of a split *)

Section AllocatorFacts.

Context {service : Service} {pycoin : Pycoin}.

Lemma range_pos (n : Z) :
  0 < n -> range n = 0 :: map Z.of_nat (seq 1 (Z.to_nat (n - 1))).
Proof.
  intros Hn. unfold range.
  replace (Z.to_nat n) with (S (Z.to_nat (n - 1))) by lia. reflexivity.
Qed.

Lemma range_nonpos (n : Z) : n <= 0 -> range n = [].
Proof.
  intros Hn. unfold range. now replace (Z.to_nat n) with 0%nat by lia.
Qed.

(** The values [_outputs] gives to its [cnt] outputs. *)
Lemma output_values (testnet : bool) (address : address)
    (txout_amount rounded_amount cnt : Z) :
  0 < cnt ->
  map coin_value
    (map (fun i =>
            let value := if i =? 0 then txout_amount + rounded_amount
                         else txout_amount in
            deserialize_txout testnet address value)
       (range cnt))
  = (txout_amount + rounded_amount) :: repeat txout_amount (Z.to_nat (cnt - 1)).
Proof.
  intros Hcnt. rewrite range_pos by exact Hcnt. cbn [map coin_value].
  rewrite Z.eqb_refl. cbn [deserialize_txout coin_value]. f_equal.
  rewrite !map_map.
  assert (Hstart : (1 <= 1)%nat) by lia. revert Hstart.
  generalize 1%nat at 2 3 as start.
  induction (Z.to_nat (cnt - 1)) as [|n IH]; intros start Hstart; [reflexivity|].
  cbn [seq map repeat]. rewrite IH by lia. f_equal.
  destruct (Z.eqb_spec (Z.of_nat start) 0) as [E|_]; [lia | reflexivity].
Qed.
End AllocatorFacts.

Section SplitOutputs.

Context {pycoin : Pycoin}.

Lemma outputs_ok_inv (testnet : bool) (inputs_total fee max_outputs limit : Z)
    (key : Key.t) (txouts : list TxOut) :
  _outputs testnet inputs_total fee max_outputs limit key = Ok txouts ->
  let txouts_total := inputs_total - fee in
  let txouts_cnt := if txouts_total >? max_outputs * limit then max_outputs
                    else txouts_total / limit in
  let txout_amount := txouts_total / txouts_cnt in
  let rounded_amount := txouts_total - txout_amount * txouts_cnt in
  txouts_cnt <> 0
  /\ txouts
     = map (fun i =>
              let value := if i =? 0 then txout_amount + rounded_amount
                           else txout_amount in
              deserialize_txout testnet (Key.address key) value)
         (range txouts_cnt)
  /\ txouts_total = sum (map coin_value txouts).
Proof.
  unfold _outputs. intros H. cbv zeta.
  set (txouts_total := inputs_total - fee) in *.
  assert (Hcnt : (if txouts_total >? max_outputs * limit then Ok max_outputs
                  else floordiv txouts_total limit)
                 = Ok (if txouts_total >? max_outputs * limit then max_outputs
                       else txouts_total / limit)).
  { destruct (txouts_total >? max_outputs * limit); [reflexivity|].
    unfold floordiv in *. destruct (limit =? 0); [discriminate H | reflexivity]. }
  rewrite Hcnt in H. cbn [bind] in H.
  set (txouts_cnt := if txouts_total >? max_outputs * limit then max_outputs
                     else txouts_total / limit) in *.
  unfold floordiv in H. destruct (Z.eqb_spec txouts_cnt 0) as [E|Hne];
    [discriminate H|].
  cbn [bind] in H.
  match type of H with (if ?c then _ else _) = _ => destruct c eqn:Hsum end;
    [|discriminate H].
  injection H as <-. apply Z.eqb_eq in Hsum. auto.
Qed.

(** C5. Whenever [_outputs] returns, as it must for [split_utxos] to build
    a transaction, its outputs share [inputs_total - fee] exactly: their
    number is [max_outputs] when [inputs_total - fee] exceeds
    [max_outputs * limit] and the floor of [(inputs_total - fee) / limit]
    otherwise; the first output carries the floor of the total over the
    count plus the whole remainder of that division, every other output
    the floor alone; and the values add up to [inputs_total - fee].
    [max_outputs], a number of outputs, is not negative. *)
Theorem outputs_partition (testnet : bool)
    (inputs_total fee max_outputs limit : Z) (key : Key.t)
    (txouts : list TxOut) :
  0 <= max_outputs ->
  _outputs testnet inputs_total fee max_outputs limit key = Ok txouts ->
  let txouts_total := inputs_total - fee in
  let count := if txouts_total >? max_outputs * limit then max_outputs
               else txouts_total / limit in
  1 <= count
  /\ len txouts = count
  /\ map coin_value txouts
     = (txouts_total / count + (txouts_total - txouts_total / count * count))
       :: repeat (txouts_total / count) (Z.to_nat (count - 1))
  /\ sum (map coin_value txouts) = txouts_total.
Proof.
  intros Hmax H. apply outputs_ok_inv in H. cbv zeta in *.
  set (txouts_total := inputs_total - fee) in *.
  set (count := if txouts_total >? max_outputs * limit then max_outputs
                else txouts_total / limit) in *.
  destruct H as (Hne & Houts & Hsum).
  assert (Hpos : 1 <= count).
  { destruct (Z_lt_le_dec count 0) as [Hneg|]; [|lia]. exfalso.
    rewrite range_nonpos in Houts by lia. subst txouts.
    cbn [map] in Hsum. rewrite sum_nil in Hsum.
    revert Hneg Hne. subst count.
    destruct (Z.gtb_spec txouts_total (max_outputs * limit)); [lia|].
    rewrite Hsum. cbn. lia. }
  split; [exact Hpos|].
  assert (Hvalues := output_values testnet (Key.address key)
                       (txouts_total / count)
                       (txouts_total - txouts_total / count * count) count
                       ltac:(lia)).
  repeat split.
  - unfold len. rewrite Houts, length_map. unfold range.
    rewrite length_map, length_seq. lia.
  - rewrite Houts. exact Hvalues.
  - now symmetry.
Qed.

End SplitOutputs.

Lemma outputs_partition_witness :
  let txouts_total := 105003 - 10000 in
  let count := if txouts_total >? 100 * 10000 then 100 else txouts_total / 10000 in
  exists txouts,
    @_outputs Double.plain_pycoin false 105003 10000 100 10000 Double.key1 = Ok txouts
    /\ 1 <= count
    /\ len txouts = count
    /\ map coin_value txouts
       = (txouts_total / count + (txouts_total - txouts_total / count * count))
         :: repeat (txouts_total / count) (Z.to_nat (count - 1))
    /\ sum (map coin_value txouts) = txouts_total.
Proof.
  eexists. split; [vm_compute; reflexivity|].
  apply (@outputs_partition Double.plain_pycoin false 105003 10000 100 10000
           Double.key1); [lia | vm_compute; reflexivity].
Defined.

(** ** Taking inputs for a split *)

Lemma take_loop_spec (maxinput : Z) (stack inputs : list Spendable.t) :
  exists taken,
    fst (take_loop maxinput stack inputs) = inputs ++ taken
    /\ stack = taken ++ snd (take_loop maxinput stack inputs)
    /\ (maxinput < sum (map Spendable.coin_value
                          (fst (take_loop maxinput stack inputs)))
        \/ snd (take_loop maxinput stack inputs) = [])
    /\ (sum (map Spendable.coin_value inputs) <= maxinput ->
        stack <> [] -> taken <> []).
Proof.
  revert inputs. induction stack as [|s stack IH]; intros inputs.
  - exists []. cbn [take_loop].
    destruct (Z.gtb_spec (sum (map Spendable.coin_value inputs)) maxinput);
      cbn [fst snd]; rewrite app_nil_r; repeat split; auto; try congruence.
  - cbn [take_loop].
    destruct (Z.gtb_spec (sum (map Spendable.coin_value inputs)) maxinput)
      as [Hgt|Hle].
    + exists []. cbn [fst snd]. rewrite app_nil_r.
      repeat split; auto; try lia.
    + destruct (IH (inputs ++ [s])) as (taken & Hfst & Hsnd & Hend & _).
      exists (s :: taken). rewrite Hfst, <- app_assoc. cbn [app].
      repeat split; auto; try congruence.
      * rewrite Hfst in Hend. rewrite <- app_assoc in Hend. exact Hend.
Qed.

Lemma filter_dust_length (spendables : list Spendable.t) (fee limit : Z) :
  (length (_filter_dust spendables fee limit) <= length spendables)%nat.
Proof.
  unfold _filter_dust. rewrite sorted_length.
  etransitivity; apply filter_length_le.
Qed.

Lemma filter_dust_values (spendables : list Spendable.t) (fee limit : Z) :
  Forall (fun s => fee < Spendable.coin_value s /\ limit < Spendable.coin_value s)
    (_filter_dust spendables fee limit).
Proof.
  apply Forall_forall. intros s Hs. unfold _filter_dust in Hs.
  apply sorted_In in Hs. apply filter_In in Hs. destruct Hs as [Hs Hlimit].
  apply filter_In in Hs. destruct Hs as [_ Hfee]. lia.
Qed.

Lemma enough_to_split_total (spendables : list Spendable.t) (fee limit : Z) :
  _enough_to_split spendables fee limit = true
  <-> fee + limit * 2 <= sum (map Spendable.coin_value spendables).
Proof. unfold _enough_to_split. lia. Qed.

Lemma take_txins_total (spendables : list Spendable.t)
    (limit max_outputs fee : Z) :
  let '(txins, inputs_total, rest) :=
    _take_txins spendables limit max_outputs fee in
  limit * max_outputs + fee < inputs_total
  \/ inputs_total = sum (map Spendable.coin_value spendables).
Proof.
  unfold _take_txins.
  destruct (take_loop_spec (limit * max_outputs + fee) (rev spendables) [])
    as (taken & Hfst & Hsnd & Hend & _).
  destruct (take_loop _ _ _) as [inputs stack]. cbn [fst snd app] in *.
  destruct Hend as [Hgt|Hnil]; [left; exact Hgt|right].
  subst. rewrite app_nil_r in Hsnd.
  now rewrite <- Hsnd, map_rev, sum_rev.
Qed.

Lemma take_txins_rest_shorter (spendables : list Spendable.t)
    (limit max_outputs fee : Z) :
  0 <= limit * max_outputs + fee ->
  spendables <> [] ->
  let '(txins, inputs_total, rest) :=
    _take_txins spendables limit max_outputs fee in
  (length rest < length spendables)%nat.
Proof.
  intros Hmax Hne. unfold _take_txins.
  destruct (take_loop_spec (limit * max_outputs + fee) (rev spendables) [])
    as (taken & Hfst & Hsnd & _ & Htaken).
  destruct (take_loop _ _ _) as [inputs stack]. cbn [fst snd app] in *.
  assert (Hlen : length spendables = (length taken + length stack)%nat)
    by (rewrite <- length_rev, Hsnd, length_app; reflexivity).
  rewrite length_rev, Hlen.
  assert (taken <> []) as Hnonempty.
  { apply Htaken; [cbn; exact Hmax|].
    intros E. apply Hne. now rewrite <- (rev_involutive spendables), E. }
  destruct taken; [congruence | cbn [length]; lia].
Qed.

Section SplitSafety.

Context {service : Service} {pycoin : Pycoin}.

Lemma outputs_ok (testnet : bool) (inputs_total fee max_outputs limit : Z)
    (key : Key.t) :
  0 < limit -> 1 <= max_outputs -> limit <= inputs_total - fee ->
  let txouts_total := inputs_total - fee in
  let txouts_cnt := if txouts_total >? max_outputs * limit then max_outputs
                    else txouts_total / limit in
  1 <= txouts_cnt
  /\ exists txouts,
       _outputs testnet inputs_total fee max_outputs limit key = Ok txouts
       /\ sum (map coin_value txouts) = inputs_total - fee.
Proof.
  intros Hlimit Hmax Hge. cbv zeta. unfold _outputs.
  set (txouts_total := inputs_total - fee) in *.
  assert (Hdiv : 1 <= txouts_total / limit)
    by (apply Z.div_le_lower_bound; lia).
  assert (Hcnt : (if txouts_total >? max_outputs * limit then Ok max_outputs
                  else floordiv txouts_total limit)
                 = Ok (if txouts_total >? max_outputs * limit then max_outputs
                       else txouts_total / limit)).
  { destruct (txouts_total >? max_outputs * limit); [reflexivity|].
    unfold floordiv. destruct (Z.eqb_spec limit 0); [lia | reflexivity]. }
  rewrite Hcnt. cbn [bind].
  set (txouts_cnt := if txouts_total >? max_outputs * limit then max_outputs
                     else txouts_total / limit).
  assert (Hpos : 1 <= txouts_cnt)
    by (subst txouts_cnt; destruct (txouts_total >? max_outputs * limit); lia).
  split; [exact Hpos|].
  unfold floordiv. destruct (Z.eqb_spec txouts_cnt 0); [lia|]. cbn [bind].
  rewrite output_values by lia. rewrite sum_cons, sum_repeat.
  replace (Z.of_nat (Z.to_nat (txouts_cnt - 1))) with (txouts_cnt - 1) by lia.
  match goal with |- context [?a =? ?b] => replace b with a by lia end.
  rewrite Z.eqb_refl. eexists. split; [reflexivity|].
  rewrite output_values by lia. rewrite sum_cons, sum_repeat.
  replace (Z.of_nat (Z.to_nat (txouts_cnt - 1))) with (txouts_cnt - 1) by lia.
  unfold txouts_total. lia.
Qed.

(** C10. With a positive [limit] and at least one output per transaction,
    once [_filter_dust] has kept only the spendables worth more than both
    [fee] and [limit] and [_enough_to_split] has found their total to be
    at least [fee + 2 * limit], the inputs [_take_txins] gathers satisfy
    [inputs_total - fee >= limit]; the output count of [_outputs] is then
    at least 1, so neither division fails, and its assertion holds:
    [_outputs] returns outputs that add up to [inputs_total - fee]. *)
Theorem outputs_division_safe (testnet : bool) (key : Key.t)
    (spendables : list Spendable.t) (limit fee max_outputs : Z) :
  0 < limit -> 1 <= max_outputs ->
  let filtered := _filter_dust spendables fee limit in
  _enough_to_split filtered fee limit = true ->
  let inputs_total := snd (fst (_take_txins filtered limit max_outputs fee)) in
  let txouts_total := inputs_total - fee in
  let txouts_cnt := if txouts_total >? max_outputs * limit then max_outputs
                    else txouts_total / limit in
  Forall (fun s => fee < Spendable.coin_value s /\ limit < Spendable.coin_value s)
    filtered
  /\ fee + limit * 2 <= sum (map Spendable.coin_value filtered)
  /\ limit <= inputs_total - fee
  /\ 1 <= txouts_cnt
  /\ exists txouts,
       _outputs testnet inputs_total fee max_outputs limit key = Ok txouts
       /\ sum (map coin_value txouts) = inputs_total - fee.
Proof.
  intros Hlimit Hmax filtered Henough. cbv zeta.
  apply enough_to_split_total in Henough.
  assert (Hge : limit <= snd (fst (_take_txins filtered limit max_outputs fee)) - fee).
  { pose proof (take_txins_total filtered limit max_outputs fee) as Htotal.
    destruct (_take_txins filtered limit max_outputs fee) as [[txins total] rest].
    cbn [fst snd]. destruct Htotal as [Hgt|Heq]; nia. }
  split; [apply filter_dust_values|].
  split; [exact Henough|].
  split; [exact Hge|].
  apply outputs_ok; assumption.
Qed.

End SplitSafety.

Lemma outputs_division_safe_witness :
  let spendables := map Double.spendable [30000; 10000; 50000; 20001; 70000] in
  let filtered := _filter_dust spendables 10000 20000 in
  let inputs_total := snd (fst (_take_txins filtered 20000 2 10000)) in
  let txouts_total := inputs_total - 10000 in
  let txouts_cnt := if txouts_total >? 2 * 20000 then 2 else txouts_total / 20000 in
  Forall (fun s => 10000 < Spendable.coin_value s /\ 20000 < Spendable.coin_value s)
    filtered
  /\ 10000 + 20000 * 2 <= sum (map Spendable.coin_value filtered)
  /\ 20000 <= inputs_total - 10000
  /\ 1 <= txouts_cnt
  /\ exists txouts,
       @_outputs Double.plain_pycoin false inputs_total 10000 2 20000 Double.key1
       = Ok txouts
       /\ sum (map coin_value txouts) = inputs_total - 10000.
Proof.
  apply (@outputs_division_safe Double.plain_pycoin false Double.key1
           (map Double.spendable [30000; 10000; 50000; 20001; 70000])
           20000 10000 2); [lia | lia | vm_compute; reflexivity].
Defined.

(** ** Termination of split_utxos *)

Section SplitTermination.

Context {service : Service} {pycoin : Pycoin}.

Lemma enough_to_split_nonempty (spendables : list Spendable.t) (fee limit : Z) :
  0 < fee + limit * 2 ->
  _enough_to_split spendables fee limit = true -> spendables <> [].
Proof.
  intros Hpos Henough ->. apply enough_to_split_total in Henough.
  cbn [map] in Henough. rewrite sum_nil in Henough. lia.
Qed.

Lemma split_utxos_enough_fuel (testnet : bool) (key : Key.t)
    (limit fee max_outputs : Z) (publish : bool) :
  0 < fee + limit * 2 ->
  0 <= limit * max_outputs + fee ->
  forall (fuel : nat) (spendables : list Spendable.t),
  (length spendables < fuel)%nat ->
  exists r,
    split_utxos fuel testnet key spendables limit fee max_outputs publish = Some r.
Proof.
  intros Hpos Hmax. induction fuel as [|fuel IH]; intros spendables Hlen; [lia|].
  cbn [split_utxos].
  pose proof (filter_dust_length spendables fee limit) as Hfilter.
  set (filtered := _filter_dust spendables fee limit) in *.
  destruct (_enough_to_split filtered fee limit) eqn:Henough; cbn [negb];
    [|eexists; reflexivity].
  pose proof (take_txins_rest_shorter filtered limit max_outputs fee Hmax
                (enough_to_split_nonempty _ _ _ Hpos Henough)) as Hrest.
  destruct (_take_txins filtered limit max_outputs fee) as [[txins total] rest].
  destruct (_outputs testnet total fee max_outputs limit key) as [txouts|e];
    [|eexists; reflexivity].
  destruct (create_tx testnet txins txouts 0 [key] publish) as [tx|e];
    [|eexists; reflexivity].
  destruct (IH rest ltac:(lia)) as [r Hr]. rewrite Hr.
  destruct r; eexists; reflexivity.
Qed.

(** C9. [split_utxos] terminates on every list of spendables, for
    parameters with [fee + 2 * limit > 0] and [limit * max_outputs + fee >= 0]
    (as with a fee that is not negative, a positive limit and a number of
    outputs that is not negative): a filtered list that passes
    [_enough_to_split] is not empty and [_take_txins] leaves strictly fewer
    spendables in it than it found; when [_enough_to_split] fails the call
    returns the empty list; so a recursion depth of one more than the
    number of spendables is enough for the call to end. *)
Theorem split_utxos_terminates (testnet : bool) (key : Key.t)
    (spendables : list Spendable.t) (limit fee max_outputs : Z)
    (publish : bool) :
  0 < fee + limit * 2 ->
  0 <= limit * max_outputs + fee ->
  let filtered := _filter_dust spendables fee limit in
  (_enough_to_split filtered fee limit = true ->
   filtered <> []
   /\ (length (snd (_take_txins filtered limit max_outputs fee))
       < length filtered)%nat)
  /\ (_enough_to_split filtered fee limit = false ->
      forall fuel,
        split_utxos (S fuel) testnet key spendables limit fee max_outputs publish
        = Some (Ok []))
  /\ (forall fuel, (length spendables < fuel)%nat ->
      exists r,
        split_utxos fuel testnet key spendables limit fee max_outputs publish
        = Some r).
Proof.
  intros Hpos Hmax filtered. repeat split.
  - now apply (enough_to_split_nonempty filtered fee limit).
  - pose proof (take_txins_rest_shorter filtered limit max_outputs fee Hmax
                  (enough_to_split_nonempty _ _ _ Hpos H)) as Hrest.
    destruct (_take_txins filtered limit max_outputs fee) as [[txins total] rest].
    exact Hrest.
  - intros Hnot fuel. cbn [split_utxos]. fold filtered. now rewrite Hnot.
  - intros fuel Hlen. now apply split_utxos_enough_fuel.
Qed.

End SplitTermination.

Lemma split_utxos_terminates_witness :
  let spendables :=
    map Double.spendable [30000; 10000; 50000; 20001; 20001; 70000] in
  let service := Double.fixed_service spendables in
  let filtered := _filter_dust spendables 10000 20000 in
  (_enough_to_split filtered 10000 20000 = true ->
   filtered <> []
   /\ (length (snd (_take_txins filtered 20000 2 10000)) < length filtered)%nat)
  /\ (_enough_to_split filtered 10000 20000 = false ->
      forall fuel,
        @split_utxos service Double.plain_pycoin (S fuel) false Double.key1
          spendables 20000 10000 2 true
        = Some (Ok []))
  /\ (forall fuel, (length spendables < fuel)%nat ->
      exists r,
        @split_utxos service Double.plain_pycoin fuel false Double.key1
          spendables 20000 10000 2 true
        = Some r).
Proof.
  apply (@split_utxos_terminates
           (Double.fixed_service
              (map Double.spendable [30000; 10000; 50000; 20001; 20001; 70000]))
           Double.plain_pycoin false Double.key1
           (map Double.spendable [30000; 10000; 50000; 20001; 20001; 70000])
           20000 10000 2 true); lia.
Defined.

(** ** Selecting inputs for an amount *)

Section SortedOrder.

Context {A : Type} (key : A -> Z).

Lemma before_in_order (reverse : bool) (x y : A) :
  before key reverse x y = true <-> in_order key reverse x y.
Proof. unfold before, in_order. destruct reverse; lia. Qed.

Lemma before_false_in_order (reverse : bool) (x y : A) :
  before key reverse x y = false -> in_order key reverse y x.
Proof. unfold before, in_order. destruct reverse; lia. Qed.

Lemma insert_Permutation (reverse : bool) (x : A) (l : list A) :
  Permutation (insert key reverse x l) (x :: l).
Proof.
  induction l as [|y l IH]; cbn [insert]; [reflexivity|].
  destruct (before key reverse x y); [reflexivity|].
  rewrite IH. apply perm_swap.
Qed.

Lemma sorted_Permutation (reverse : bool) (l : list A) :
  Permutation (sorted key reverse l) l.
Proof.
  induction l as [|x l IH]; [reflexivity|].
  cbn [sorted fold_right]. fold (sorted key reverse l).
  rewrite insert_Permutation. now constructor.
Qed.

Lemma insert_HdRel (reverse : bool) (a x : A) (l : list A) :
  in_order key reverse a x -> HdRel (in_order key reverse) a l ->
  HdRel (in_order key reverse) a (insert key reverse x l).
Proof.
  intros Hax Hal. destruct l as [|y l]; cbn [insert]; [now constructor|].
  destruct (before key reverse x y); constructor; [exact Hax|].
  now inversion Hal.
Qed.

Lemma insert_Sorted (reverse : bool) (x : A) (l : list A) :
  Sorted (in_order key reverse) l -> Sorted (in_order key reverse) (insert key reverse x l).
Proof.
  induction 1 as [|y l Hl IH Hhd]; cbn [insert]; [repeat constructor|].
  destruct (before key reverse x y) eqn:E.
  - constructor; [now constructor|]. constructor. now apply before_in_order.
  - constructor; [exact IH|].
    apply insert_HdRel; [|exact Hhd]. now apply before_false_in_order.
Qed.

Lemma sorted_Sorted (reverse : bool) (l : list A) :
  Sorted (in_order key reverse) (sorted key reverse l).
Proof.
  induction l as [|x l IH]; [constructor|].
  cbn [sorted fold_right]. fold (sorted key reverse l). now apply insert_Sorted.
Qed.

End SortedOrder.

Lemma value_of_snoc (l : list Spendable.t) (s : Spendable.t) :
  value_of (l ++ [s]) = value_of l + Spendable.coin_value s.
Proof.
  unfold value_of. rewrite map_app, sum_app. cbn [map].
  rewrite sum_cons, sum_nil. lia.
Qed.

Lemma find_txins_loop_spec (amount : Z) (spendables : list Spendable.t)
    (txins : list TxIn) (total : Z) :
  exists k : nat,
    (k <= length spendables)%nat
    /\ find_txins_loop amount spendables txins total
       = (txins ++ map spend (firstn k spendables),
          total + value_of (firstn k spendables))
    /\ (forall j, (0 < j < k)%nat ->
        total + value_of (firstn j spendables) < amount)
    /\ ((k < length spendables)%nat ->
        amount <= total + value_of (firstn k spendables))
    /\ (spendables <> [] -> (0 < k)%nat).
Proof.
  revert txins total. induction spendables as [|s rest IH]; intros txins total.
  - exists 0%nat. cbn. rewrite app_nil_r. unfold value_of. cbn.
    repeat split; try lia; try congruence. f_equal. lia.
  - cbn [find_txins_loop].
    destruct (Z.geb_spec (total + Spendable.coin_value s) amount) as [Hge|Hlt].
    + exists 1%nat. cbn [firstn map length]. unfold value_of. cbn [map].
      rewrite sum_cons, sum_nil.
      repeat split; try lia. f_equal. lia.
    + destruct (IH (txins ++ [spend s]) (total + Spendable.coin_value s))
        as (k & Hk & Hloop & Hmin & Hstop & _).
      exists (S k). cbn [firstn map length].
      fold (spend s). rewrite Hloop, <- app_assoc. cbn [app].
      assert (Hv : forall l, value_of (s :: l) = Spendable.coin_value s + value_of l)
        by (intros l; unfold value_of; cbn [map]; now rewrite sum_cons).
      repeat split; try lia.
      * f_equal. rewrite Hv. lia.
      * intros j Hj. destruct j as [|j]; [lia|]. cbn [firstn]. rewrite Hv.
        destruct j as [|j].
        -- cbn [firstn]. unfold value_of. cbn [map]. rewrite sum_nil. lia.
        -- specialize (Hmin (S j) ltac:(lia)). lia.
      * intros Hlt'. rewrite Hv. specialize (Hstop ltac:(lia)). lia.
Qed.

Section SelectInputs.

Context {service : Service} {pycoin : Pycoin}.

(** C6. [find_txins] looks at the spendables in descending order of value
    (a reordering of what the service reports) and takes a prefix of them:
    the shortest non-empty one whose total reaches [amount], or all of them
    when none does; it returns those inputs and their total either way.
    [add_inputs] raises [InsufficientFunds(required, total)] exactly when
    that total is below [required], leaving the transaction as it was. For
    spendables worth 3000, 5000 and 1000 and an amount of 4000 the result
    is the single input worth 5000, with total 5000. *)
Theorem find_txins_greedy (addresses : list address) (amount : Z) :
  let spendables := retrieve_utxos addresses in
  Permutation spendables (spendables_for_addresses addresses)
  /\ Sorted (fun a b => Spendable.coin_value b <= Spendable.coin_value a) spendables
  /\ (exists k : nat,
        (k <= length spendables)%nat
        /\ find_txins addresses amount
           = (map spend (firstn k spendables), value_of (firstn k spendables))
        /\ (forall j, (0 < j < k)%nat -> value_of (firstn j spendables) < amount)
        /\ ((k < length spendables)%nat -> amount <= value_of (firstn k spendables))
        /\ (spendables <> [] -> (0 < k)%nat))
  /\ (forall (testnet : bool) (tx : Tx) (keys : list Key.t)
             (change_address : option address) (fee : Z),
        let required := sum (map coin_value (txs_out tx)) + fee in
        let total := snd (find_txins (map Key.address keys) required) in
        (total < required ->
         add_inputs testnet tx keys change_address fee
         = (tx, Some (InsufficientFunds required total)))
        /\ ((exists r t, snd (add_inputs testnet tx keys change_address fee)
                         = Some (InsufficientFunds r t))
            <-> total < required))
  /\ @find_txins (Double.fixed_service (map Double.spendable [3000; 5000; 1000]))
       addresses 4000
     = ([spend (Double.spendable 5000)], 5000).
Proof.
  cbv zeta. split; [apply sorted_Permutation|].
  split; [apply (sorted_Sorted Spendable.coin_value true)|].
  split.
  { unfold find_txins.
    destruct (find_txins_loop_spec amount (retrieve_utxos addresses) [] 0)
      as (k & Hk & Hloop & Hmin & Hstop & Hpos).
    exists k. rewrite Hloop. cbn [app]. repeat split; auto. }
  split; [|reflexivity].
  intros testnet tx keys change_address fee. unfold add_inputs.
  destruct (find_txins (map Key.address keys) _) as [txins total]. cbn [snd].
  destruct (Z.ltb_spec total (sum (map coin_value (txs_out tx)) + fee))
    as [Hlt|Hge].
  - split; [reflexivity|]. split; [intros _; exact Hlt|].
    intros _. cbn [snd]. eauto.
  - split; [lia|]. split; [|lia]. intros (r & t & H). exfalso.
    destruct change_address as [[|c a]|];
      try (cbn in H; discriminate H);
      destruct (index_list (map Key.address keys) 0) eqn:E;
      cbn in H; try discriminate H;
      unfold index_list in E; destruct (nth_error _ _); inversion E; subst;
      discriminate H.
Qed.

End SelectInputs.

(** ** Signing *)

Section SignatureFacts.

Context {pycoin : Pycoin} {ecdsa : Ecdsa}.

Variable modular_sqrt : Z -> Z -> Z.

Lemma add_recovery_params_length (i : Z) (compressed : bool) (sigdata : bytes) :
  len (_add_recovery_params i compressed sigdata) = 1 + len sigdata.
Proof. unfold _add_recovery_params, len. cbn [length]. lia. Qed.

Lemma candidates_headers (sigdata : bytes) :
  candidates sigdata
  = map (fun header => byte_of_Z header :: sigdata)
      [27 + 0 + 4; 27 + 0; 27 + 1 + 4; 27 + 1; 27 + 2 + 4; 27 + 2; 27 + 3 + 4; 27 + 3].
Proof. reflexivity. Qed.

Lemma candidates_length (sigdata sig : bytes) :
  In sig (candidates sigdata) -> len sig = 1 + len sigdata.
Proof.
  rewrite candidates_headers. intros H. apply in_map_iff in H.
  destruct H as (header & <- & _). unfold len. cbn [length]. lia.
Qed.

(** X1. [_parse_signature] reads back the recovery id and the compressed
    flag that [_add_recovery_params] wrote in the header byte, for every
    recovery id from 0 to 3 and signature data that decodes. *)
Lemma parse_add_recovery_params (i : Z) (compressed : bool) (sigdata : bytes)
    (r s : Z) :
  0 <= i <= 3 ->
  sigdecode_string sigdata order = Ok (r, s) ->
  _parse_signature (_add_recovery_params i compressed sigdata) order
  = Ok (sigdata, r, s, i, compressed).
Proof.
  intros Hi Hrs. unfold _parse_signature, _add_recovery_params.
  change (slice_from 1 (?b :: sigdata)) with sigdata. rewrite Hrs. cbn [bind].
  unfold index_list. cbn [Z.to_nat nth_error bind]. rewrite byte_to_of_Z.
  assert (Hcases : i = 0 \/ i = 1 \/ i = 2 \/ i = 3) by lia.
  destruct Hcases as [-> | [-> | [-> | ->]]]; destruct compressed; reflexivity.
Qed.

(** The inner loop finds nothing when every flag is rejected. *)
Lemma sign_try_flags_none (testnet : bool) (address : address)
    (data sigdata : bytes) (i : Z) (flags : list bool) :
  Forall (fun sig => verify_signature modular_sqrt testnet address sig data = Ok false)
    (map (fun compressed => _add_recovery_params i compressed sigdata) flags) ->
  sign_try_flags modular_sqrt testnet address data sigdata i flags = Ok None.
Proof.
  induction flags as [|c flags IH]; intros H; [reflexivity|].
  cbn [map] in H. inversion H as [|? ? Hc Hrest]; subst.
  cbn [sign_try_flags]. rewrite Hc. cbn [bind]. now apply IH.
Qed.



End SignatureFacts.

Lemma parse_add_recovery_params_witness :
  @_parse_signature Double.small_ecdsa
    (_add_recovery_params 1 true (Double.sigencode 176 171)) Double.n
  = Ok (Double.sigencode 176 171, 176, 171, 1, true).
Proof.
  apply (@parse_add_recovery_params Double.small_ecdsa 1 true
           (Double.sigencode 176 171) 176 171); [lia | vm_compute; reflexivity].
Defined.


(** With the flag of the key's network, different keys are served by
    different headers: 31, 32 and 34 here. *)
Example sign_data_headers_run :
  @sign_data Double.plain_pycoin Double.small_ecdsa Double.sqrt_mod false
    (ascii_bytes "hello") (Double.key 1)
  = Ok (x1f :: Double.sigencode 71 43)
  /\ @sign_data Double.plain_pycoin Double.small_ecdsa Double.sqrt_mod false
       (ascii_bytes "hello") (Double.key 5)
     = Ok (x20 :: Double.sigencode 176 171)
  /\ @sign_data Double.plain_pycoin Double.small_ecdsa Double.sqrt_mod false
       (ascii_bytes "hello") (Double.key 23)
     = Ok (x22 :: Double.sigencode 8 24).
Proof. repeat split; vm_compute; reflexivity. Qed.

(** ** Verification and its exceptions *)

Section VerifyFacts.

Context {pycoin : Pycoin} {ecdsa : Ecdsa}.

Variable modular_sqrt : Z -> Z -> Z.


(** A signature whose first byte has bits set above the three parameter
    bits is rejected, not raised. *)
Lemma verify_signature_bad_header (testnet : bool) (address : address)
    (sig data : bytes) (r s : Z) (first : byte) :
  sigdecode_string (slice_from 1 sig) order = Ok (r, s) ->
  index_list sig 0 = Ok first ->
  byte_to_Z first - 27 <> Z.land (byte_to_Z first - 27) 7 ->
  verify_signature modular_sqrt testnet address sig data = Ok false.
Proof.
  intros Hrs Hfirst Hbits. unfold verify_signature, _parse_signature.
  rewrite Hrs. cbn [bind]. rewrite Hfirst. cbn [bind].
  destruct (Z.eqb_spec (byte_to_Z first - 27) (Z.land (byte_to_Z first - 27) 7));
    [contradiction | reflexivity].
Qed.

(** C3, where the code departs from it. When the signature parses, the
    public key is recovered and accepted, and [verify_digest] then rejects
    the raw signature by raising [BadSignatureError] (as it does for
    [s = 0]), no handler of [verify_signature] applies: the exception
    leaves the function instead of the value [False]. *)
Theorem verify_signature_bad_signature_escapes (testnet : bool)
    (address : address) (sig data rsdata : bytes) (r s i : Z)
    (compressed : bool) (Q : point) (pub : VerifyingKey) :
  _parse_signature sig order = Ok (rsdata, r, s, i, compressed) ->
  _recover_public_key modular_sqrt generator order r s i
    (bytestoint (_bitcoin_message_hash data)) = Ok Q ->
  from_public_point Q = Ok pub ->
  verify_digest pub rsdata (_bitcoin_message_hash data) = Raise BadSignatureError ->
  verify_signature modular_sqrt testnet address sig data = Raise BadSignatureError.
Proof.
  intros Hparse Hrecover Hpub Hverify. unfold verify_signature.
  rewrite Hparse. cbn [bind]. rewrite Hrecover. cbn [bind].
  rewrite Hpub. cbn [bind]. rewrite Hverify. reflexivity.
Qed.

End VerifyFacts.

Lemma verify_signature_bad_signature_escapes_witness :
  @verify_signature Double.plain_pycoin Double.small_ecdsa Double.sqrt_mod false
    (Key.address (Double.key 5))
    (x1b :: Double.sigencode 3 0) (ascii_bytes "hello")
  = Raise BadSignatureError.
Proof.
  eapply (@verify_signature_bad_signature_escapes Double.plain_pycoin
            Double.small_ecdsa Double.sqrt_mod false (Key.address (Double.key 5))
            (x1b :: Double.sigencode 3 0) (ascii_bytes "hello")
            (Double.sigencode 3 0) 3 0 0 false);
    vm_compute; reflexivity.
Defined.

(** ** Broadcast messages *)

Section BroadcastFacts.

Context {pycoin : Pycoin} {ecdsa : Ecdsa} {text : Text}.

Variable modular_sqrt : Z -> Z -> Z.

(** X4. The three ways in which [get_broadcast_message] itself says that
    the transaction holds no broadcast message: no data blob, a blob
    shorter than 98 bytes, a signature that does not verify. *)
Lemma get_broadcast_message_no_message (testnet : bool) (tx : Tx) :
  (get_data_blob tx = Raise NoDataBlob ->
   get_broadcast_message modular_sqrt testnet tx = Raise NoBroadcastMessage)
  /\ (forall data,
        get_data_blob tx = Ok data ->
        len data < 65 + 13 + 20 ->
        get_broadcast_message modular_sqrt testnet tx = Raise NoBroadcastMessage)
  /\ (forall data msg_data,
        get_data_blob tx = Ok data ->
        65 + 13 + 20 <= len data ->
        zlib_decompress (slice_from 20 (slice_from 13 (slice_from 65 data)))
        = Ok msg_data ->
        verify_signature modular_sqrt testnet
          (_hash160_to_address testnet
             (slice_to 20 (slice_from 13 (slice_from 65 data))))
          (slice_to 65 data) msg_data = Ok false ->
        get_broadcast_message modular_sqrt testnet tx = Raise NoBroadcastMessage).
Proof.
  unfold get_broadcast_message. repeat split.
  - intros ->. reflexivity.
  - intros data -> Hlen. cbn [bind].
    destruct (Z.ltb_spec (len data) (65 + 13 + 20 + 0)); [reflexivity | lia].
  - intros data msg_data -> Hlen Hzlib Hverify. cbn [bind].
    destruct (Z.ltb_spec (len data) (65 + 13 + 20 + 0)); [lia|].
    rewrite Hzlib. cbn [bind]. rewrite Hverify. reflexivity.
Qed.

(** C7, where the code departs from it. For a data blob of at least
    [65 + 13 + 20] bytes whose tail [zlib.decompress] rejects,
    [get_broadcast_message] lets [zlib.error] through: the call to
    [zlib.decompress] is outside any [try], so the failure is not turned
    into [NoBroadcastMessage]. *)
Theorem get_broadcast_message_decompress_error (testnet : bool) (tx : Tx)
    (data : bytes) :
  get_data_blob tx = Ok data ->
  65 + 13 + 20 <= len data ->
  zlib_decompress (slice_from 20 (slice_from 13 (slice_from 65 data)))
  = Raise ZlibError ->
  get_broadcast_message modular_sqrt testnet tx = Raise ZlibError.
Proof.
  intros Hblob Hlen Hzlib. unfold get_broadcast_message.
  rewrite Hblob. cbn [bind].
  destruct (Z.ltb_spec (len data) (65 + 13 + 20 + 0)); [lia|].
  rewrite Hzlib. reflexivity.
Qed.

End BroadcastFacts.

Lemma get_broadcast_message_no_message_witness :
  @get_broadcast_message Double.plain_pycoin Double.small_ecdsa Double.plain_text
    Double.sqrt_mod false empty_tx
  = Raise NoBroadcastMessage.
Proof.
  apply (proj1 (@get_broadcast_message_no_message Double.plain_pycoin
                  Double.small_ecdsa Double.plain_text Double.sqrt_mod false
                  empty_tx)).
  reflexivity.
Defined.

Lemma get_broadcast_message_decompress_error_witness :
  @get_broadcast_message Double.plain_pycoin Double.small_ecdsa Double.plain_text
    Double.sqrt_mod false
    (fst (add_data_blob 40 empty_tx (repeat x00 98) 548))
  = Raise ZlibError.
Proof.
  apply (@get_broadcast_message_decompress_error Double.plain_pycoin
           Double.small_ecdsa Double.plain_text Double.sqrt_mod false
           (fst (add_data_blob 40 empty_tx (repeat x00 98) 548))
           (repeat x00 98));
    vm_compute; (reflexivity || discriminate).
Defined.

(** ** At most one null-data output *)

Lemma filter_none {A} (f : A -> bool) (l : list A) :
  Forall (fun a => f a = false) l -> filter f l = [].
Proof.
  induction 1 as [|a l Ha _ IH]; [reflexivity|].
  cbn [filter]. now rewrite Ha.
Qed.

Lemma count_nulldata_none (tx : Tx) :
  _get_nulldata_output tx = None -> count_nulldata tx = 0%nat.
Proof.
  intros H. apply find_nulldata_none_forall in H.
  unfold count_nulldata. now rewrite filter_none.
Qed.

Lemma add_nulldata_output_existing (tx : Tx) (out : TxOut) (p : Z * TxOut) :
  _get_nulldata_output tx = Some p ->
  add_nulldata_output tx out = (tx, Some ExistingNulldataOutput).
Proof. intros H. unfold add_nulldata_output. now rewrite H. Qed.

Lemma add_data_blob_existing (MAX_NULLDATA : Z) (tx : Tx) (data : bytes)
    (dust_limit : Z) (p : Z * TxOut) :
  _get_nulldata_output tx = Some p ->
  add_data_blob MAX_NULLDATA tx data dust_limit
  = (tx, Some (if len data >? 65536
               then MaxDataBlobSizeExceeded 65536 (len data)
               else ExistingNulldataOutput)).
Proof.
  intros H. unfold add_data_blob.
  change (2 ^ (SIZE_PREFIX_BYTES * 8)) with 65536.
  destruct (len data >? 65536); [reflexivity|].
  destruct (_ <=? _);
    rewrite (add_nulldata_output_existing tx _ p H); reflexivity.
Qed.

Lemma add_data_blob_success (MAX_NULLDATA : Z) (tx : Tx) (data : bytes)
    (dust_limit : Z) (tx' : Tx) :
  add_data_blob MAX_NULLDATA tx data dust_limit = (tx', None) ->
  _get_nulldata_output tx = None
  /\ exists (nulldata : TxOut) (carriers : list TxOut),
       txs_out tx' = txs_out tx ++ nulldata :: carriers
       /\ is_nulldata nulldata = true
       /\ Forall (fun out => is_nulldata out = false) carriers.
Proof.
  unfold add_data_blob. destruct (len data >? _); [discriminate|].
  unfold add_nulldata_output.
  destruct (_get_nulldata_output tx) as [p|] eqn:Hnone.
  { destruct (_ <=? _); discriminate. }
  intros H. split; [reflexivity|].
  destruct (_ <=? _).
  - injection H as <-. eexists _, []. cbn [append_out txs_out].
    repeat split; constructor.
  - injection H as <-. rewrite fold_add_chunk. cbn [append_out txs_out].
    rewrite <- app_assoc. cbn [app]. eexists _, _.
    repeat split. apply Forall_map, Forall_forall. reflexivity.
Qed.

Section OneNulldata.

Context {pycoin : Pycoin} {ecdsa : Ecdsa} {text : Text}.

Variable modular_sqrt : Z -> Z -> Z.

Variable MAX_NULLDATA : Z.

(** C8. For a transaction that already holds a null-data output,
    [add_nulldata_output] raises [ExistingNulldataOutput] and leaves the
    outputs as they were; so do [add_data_blob] and [add_broadcast_message]
    once they reach it, that is for a payload that passes the size check,
    which comes first, and a message that could be signed. A call of
    [add_data_blob] that succeeds started from a transaction without
    null-data output and appended exactly one, followed only by carrier
    outputs: the transaction it leaves holds exactly one. *)
Theorem one_nulldata_output (tx : Tx) :
  (forall (p : Z * TxOut),
     _get_nulldata_output tx = Some p ->
     (forall out,
        add_nulldata_output tx out = (tx, Some ExistingNulldataOutput))
     /\ (forall data dust_limit,
           fst (add_data_blob MAX_NULLDATA tx data dust_limit) = tx
           /\ (len data <= 65536 ->
               add_data_blob MAX_NULLDATA tx data dust_limit
               = (tx, Some ExistingNulldataOutput)))
     /\ (forall testnet message sender_key dust_limit,
           fst (add_broadcast_message modular_sqrt MAX_NULLDATA testnet tx message
                  sender_key dust_limit) = tx
           /\ (forall signature,
                 sign_data modular_sqrt testnet (encode_utf8 message) sender_key
                 = Ok signature ->
                 len (signature ++ repeat x00 13
                      ++ _address_to_hash160 testnet (Key.address sender_key)
                      ++ zlib_compress (encode_utf8 message) 9) <= 65536 ->
                 add_broadcast_message modular_sqrt MAX_NULLDATA testnet tx message
                   sender_key dust_limit
                 = (tx, Some ExistingNulldataOutput))))
  /\ (forall data dust_limit tx',
        add_data_blob MAX_NULLDATA tx data dust_limit = (tx', None) ->
        count_nulldata tx = 0%nat
        /\ count_nulldata tx' = 1%nat
        /\ exists nulldata carriers,
             txs_out tx' = txs_out tx ++ nulldata :: carriers
             /\ is_nulldata nulldata = true
             /\ Forall (fun out => is_nulldata out = false) carriers).
Proof.
  split.
  - intros p Hp. split; [|split].
    + intros out. exact (add_nulldata_output_existing tx out p Hp).
    + intros data dust_limit.
      rewrite (add_data_blob_existing MAX_NULLDATA tx data dust_limit p Hp).
      split; [reflexivity|]. intros Hlen.
      destruct (Z.gtb_spec (len data) 65536); [lia | reflexivity].
    + intros testnet message sender_key dust_limit.
      unfold add_broadcast_message.
      destruct (sign_data modular_sqrt testnet (encode_utf8 message) sender_key)
        as [signature|e].
      * rewrite (add_data_blob_existing MAX_NULLDATA tx _ dust_limit p Hp).
        split; [reflexivity|]. intros sig' Hsig' Hlen. injection Hsig' as <-.
        rewrite <- !app_assoc.
        destruct (Z.gtb_spec
                    (len (signature ++ repeat x00 13
                          ++ _address_to_hash160 testnet (Key.address sender_key)
                          ++ zlib_compress (encode_utf8 message) 9)) 65536);
          [lia | reflexivity].
      * split; [reflexivity|]. intros sig' Hsig'. discriminate Hsig'.
  - intros data dust_limit tx' H.
    destruct (add_data_blob_success _ _ _ _ _ H)
      as (Hnone & nulldata & carriers & Houts & Hnd & Hcarriers).
    pose proof (count_nulldata_none tx Hnone) as Hcount.
    split; [exact Hcount|]. split; [|eauto].
    unfold count_nulldata in *. rewrite Houts, filter_app. cbn [filter].
    rewrite Hnd, length_app. cbn [length].
    rewrite (filter_none _ _ Hcarriers), Hcount. reflexivity.
Qed.

End OneNulldata.

Lemma one_nulldata_output_witness :
  let tx := fst (add_data_blob 40 empty_tx (ascii_bytes "first") 548) in
  add_data_blob 40 tx (ascii_bytes "second") 548
  = (tx, Some ExistingNulldataOutput)
  /\ count_nulldata empty_tx = 0%nat
  /\ count_nulldata tx = 1%nat.
Proof.
  cbv zeta.
  pose proof (@one_nulldata_output Double.plain_pycoin Double.small_ecdsa
                Double.plain_text Double.sqrt_mod 40) as H.
  split.
  - destruct (H (fst (add_data_blob 40 empty_tx (ascii_bytes "first") 548)))
      as [Hexisting _].
    destruct (Hexisting (0, nulldata_txout (serialize_data
                (num_to_bytes SIZE_PREFIX_BYTES 5 ++ ascii_bytes "first")))
                eq_refl) as (_ & Hblob & _).
    apply Hblob. vm_compute. discriminate.
  - destruct (H empty_tx) as [_ Hsuccess].
    destruct (Hsuccess (ascii_bytes "first") 548
                (fst (add_data_blob 40 empty_tx (ascii_bytes "first") 548))
                eq_refl) as (H0 & H1 & _).
    split; assumption.
Defined.

(** ** Runs on the stand-ins *)

(** A payload that fills the null-data output needs no carrier output; one
    more byte needs exactly one. *)
Example capacity_boundary :
  len (txs_out (fst (add_data_blob 40 empty_tx (repeat x00 38) 548))) = 1
  /\ len (txs_out (fst (add_data_blob 40 empty_tx (repeat x00 39) 548))) = 2.
Proof. split; reflexivity. Qed.

(** Two passes split five spendables above the dust limits; the two that
    remain are not enough for a third. *)
Example split_utxos_run :
  @split_utxos (Double.fixed_service []) Double.plain_pycoin 7 false Double.key1
    (map Double.spendable [30000; 10000; 50000; 20001; 20001; 70000])
    20000 10000 2 true
  = Some (Ok [num_to_bytes 4 60000; num_to_bytes 4 70000]).
Proof. vm_compute. reflexivity. Qed.

(** A signature does not verify for another message, nor with another [s]. *)
Example tampered_signature :
  @verify_signature Double.plain_pycoin Double.small_ecdsa Double.sqrt_mod false
    (Key.address (Double.key 5))
    (_add_recovery_params 1 true (Double.sigencode 176 171)) (ascii_bytes "hellp")
  = Ok false
  /\ @verify_signature Double.plain_pycoin Double.small_ecdsa Double.sqrt_mod false
       (Key.address (Double.key 5))
       (_add_recovery_params 1 true (Double.sigencode 176 170)) (ascii_bytes "hello")
     = Ok false.
Proof. split; vm_compute; reflexivity. Qed.

(** A broadcast message is read back with its sender and signature. *)
Example broadcast_message_roundtrip :
  @get_broadcast_message Double.plain_pycoin Double.small_ecdsa Double.plain_text
    Double.sqrt_mod false
    (fst (@add_broadcast_message Double.plain_pycoin Double.small_ecdsa
            Double.plain_text Double.sqrt_mod 40 false empty_tx "hello"
            (Double.key 5) 548))
  = Ok (mkBroadcastMessage (Key.address (Double.key 5)) "hello"
          (_add_recovery_params 1 true (Double.sigencode 176 171))).
Proof. vm_compute. reflexivity. Qed.

(** * Further properties *)

(** ** What add_data_blob appends *)

Lemma framed_length (data : bytes) :
  len (framed data) = SIZE_PREFIX_BYTES + len data.
Proof.
  unfold framed, len. rewrite length_app.
  pose proof (size_prefix_length (len data)) as H. unfold len in H. lia.
Qed.

Lemma add_data_blob_outputs (MAX_NULLDATA : Z) (tx : Tx) (data : bytes)
    (dust_limit : Z) :
  _get_nulldata_output tx = None ->
  len data <= 65536 ->
  add_data_blob MAX_NULLDATA tx data dust_limit
  = (mkTx (version tx) (txs_in tx)
       (txs_out tx
        ++ nulldata_txout (serialize_data (nulldata_part MAX_NULLDATA data))
        :: map (chunk_txout dust_limit) (chunks (carried_part MAX_NULLDATA data) 20))
       (lock_time tx),
     None).
Proof.
  intros Hnone Hlen. unfold add_data_blob, nulldata_part, carried_part.
  change (2 ^ (SIZE_PREFIX_BYTES * 8)) with 65536.
  destruct (Z.gtb_spec (len data) 65536); [lia|].
  fold (framed data). unfold add_nulldata_output. rewrite Hnone.
  destruct (len (framed data) <=? MAX_NULLDATA).
  - rewrite chunks_nil by lia. reflexivity.
  - rewrite fold_add_chunk. unfold append_out.
    cbn [version txs_in txs_out lock_time]. now rewrite <- app_assoc.
Qed.

(** X5. [add_data_blob] is all or nothing and only appends: a call that
    raises leaves the transaction as it was; a call that returns keeps the
    version, the inputs, the lock time and the outputs that were there, in
    their order, and appends after them one null-data output of value 0
    followed by carrier outputs that each hold the dust limit. *)
Theorem add_data_blob_effect (MAX_NULLDATA : Z) (tx : Tx) (data : bytes)
    (dust_limit : Z) :
  (forall tx' e,
     add_data_blob MAX_NULLDATA tx data dust_limit = (tx', Some e) -> tx' = tx)
  /\ (forall tx',
        add_data_blob MAX_NULLDATA tx data dust_limit = (tx', None) ->
        version tx' = version tx
        /\ txs_in tx' = txs_in tx
        /\ lock_time tx' = lock_time tx
        /\ exists nulldata carriers,
             txs_out tx' = txs_out tx ++ nulldata :: carriers
             /\ coin_value nulldata = 0
             /\ Forall (fun out => coin_value out = dust_limit) carriers).
Proof.
  split.
  - intros tx' e. unfold add_data_blob.
    destruct (len data >? _); [intros H; now injection H|].
    unfold add_nulldata_output.
    destruct (_get_nulldata_output tx); destruct (_ <=? _); intros H;
      try discriminate H; now injection H.
  - intros tx' H.
    assert (Hnone : _get_nulldata_output tx = None)
      by (destruct (add_data_blob_success _ _ _ _ _ H) as [Hn _]; exact Hn).
    assert (Hlen : len data <= 65536).
    { revert H. unfold add_data_blob.
      change (2 ^ (SIZE_PREFIX_BYTES * 8)) with 65536.
      destruct (Z.gtb_spec (len data) 65536) as [Hgt|Hle];
        [intros Hd; discriminate Hd|].
      intros _. lia. }
    rewrite (add_data_blob_outputs _ _ _ _ Hnone Hlen) in H. injection H as <-.
    cbn [version txs_in txs_out lock_time]. repeat split.
    eexists _, _. repeat split.
    apply Forall_map, Forall_forall. reflexivity.
Qed.

(** X6. The number of outputs a successful [add_data_blob] appends: one
    when the payload and its two-byte prefix fit in [MAX_NULLDATA] bytes,
    and otherwise one more for every 20 bytes, or part of 20 bytes, beyond
    them. *)
Theorem add_data_blob_output_count (MAX_NULLDATA : Z) (tx : Tx) (data : bytes)
    (dust_limit : Z) (tx' : Tx) :
  0 <= MAX_NULLDATA ->
  add_data_blob MAX_NULLDATA tx data dust_limit = (tx', None) ->
  len (txs_out tx')
  = len (txs_out tx) + 1
    + (if len data + 2 <=? MAX_NULLDATA then 0
       else ceil_div (len data + 2 - MAX_NULLDATA) 20).
Proof.
  intros Hmax H.
  assert (Hnone : _get_nulldata_output tx = None)
    by (destruct (add_data_blob_success _ _ _ _ _ H) as [Hn _]; exact Hn).
  assert (Hlen : len data <= 65536).
  { revert H. unfold add_data_blob.
    change (2 ^ (SIZE_PREFIX_BYTES * 8)) with 65536.
    destruct (Z.gtb_spec (len data) 65536) as [Hgt|Hle];
      [intros Hd; discriminate Hd|].
    intros _. lia. }
  rewrite (add_data_blob_outputs _ _ _ _ Hnone Hlen) in H. injection H as <-.
  cbn [txs_out]. unfold len at 1. rewrite length_app. cbn [length].
  rewrite length_map. unfold carried_part.
  pose proof (framed_length data) as Hf.
  assert (Hsp : SIZE_PREFIX_BYTES = 2) by reflexivity.
  replace (len data + 2) with (len (framed data)) by lia.
  destruct (Z.leb_spec (len (framed data)) MAX_NULLDATA) as [Hfit|Hbig].
  - rewrite chunks_nil by lia. cbn [length]. unfold len. lia.
  - unfold chunks. rewrite length_map, length_seq.
    assert (Hrest : len (slice_from MAX_NULLDATA (framed data))
                    = len (framed data) - MAX_NULLDATA).
    { unfold slice_from, len in *. rewrite length_skipn. lia. }
    rewrite Hrest.
    pose proof (ceil_div_nonneg (len (framed data) - MAX_NULLDATA) 20
                  ltac:(lia) eq_refl) as Hnn.
    unfold len in *. lia.
Qed.

Lemma add_data_blob_output_count_witness :
  len (txs_out (fst (add_data_blob 40 empty_tx (repeat x00 100) 548)))
  = len (txs_out empty_tx) + 1
    + (if len (repeat x00 100) + 2 <=? 40 then 0
       else ceil_div (len (repeat x00 100) + 2 - 40) 20).
Proof.
  apply (add_data_blob_output_count 40 empty_tx (repeat x00 100) 548
           (fst (add_data_blob 40 empty_tx (repeat x00 100) 548)));
    [lia | vm_compute; reflexivity].
Defined.

(** ** What get_data_blob returns and raises *)

Lemma h2b_raises (h : list ascii) (e : exn) :
  h2b h = Raise e -> e = BinasciiError.
Proof.
  remember (length h) as n eqn:Hn. revert h Hn e.
  induction n as [n IH] using lt_wf_ind. intros h Hn e.
  destruct h as [|c1 [|c2 rest]]; cbn [h2b]; try discriminate.
  - intros H. now injection H.
  - destruct (unhexdigit c1), (unhexdigit c2); try (intros H; now injection H).
    destruct (h2b rest) as [tl|e'] eqn:Hrest; cbn [bind]; [discriminate|].
    intros H. injection H as <-.
    apply (IH (length rest)) with (h := rest); [subst n; cbn; lia | reflexivity | exact Hrest].
Qed.

Lemma find_nulldata_spec (index : Z) (outs : list TxOut) (j : Z) (out : TxOut) :
  find_nulldata index outs = Some (j, out) ->
  index <= j < index + len outs
  /\ nth_error outs (Z.to_nat (j - index)) = Some out
  /\ is_nulldata out = true
  /\ Forall (fun o => is_nulldata o = false) (firstn (Z.to_nat (j - index)) outs).
Proof.
  revert index. induction outs as [|o outs IH]; intros index; cbn [find_nulldata];
    [discriminate|].
  destruct (is_nulldata o) eqn:Ho.
  - intros H. injection H as <- <-. rewrite Z.sub_diag. cbn.
    unfold len. cbn [length]. repeat split; try lia; auto.
  - intros H. destruct (IH _ H) as (Hj & Hnth & Hnd & Hbefore).
    replace (Z.to_nat (j - index)) with (S (Z.to_nat (j - (index + 1)))) by lia.
    cbn [nth_error firstn]. unfold len in *. cbn [length].
    repeat split; try lia; auto.
Qed.

Lemma append_hash160_data_raises (tx : Tx) (nulldata_index : Z)
    (indices : list Z) (data : bytes) (e : exn) :
  Forall (fun index => 0 <= index + nulldata_index + 1 < len (txs_out tx))
    indices ->
  append_hash160_data tx nulldata_index indices data = Raise e ->
  e = BinasciiError.
Proof.
  intros Hin. revert data. induction Hin as [|index rest Hi _ IH]; intros data;
    cbn [append_hash160_data]; [discriminate|].
  unfold get_hash160_data, index_list.
  destruct (nth_error (txs_out tx) (Z.to_nat (index + nulldata_index + 1)))
    as [out|] eqn:Hnth.
  - cbn [bind]. destruct (h2b _) as [chunk|e'] eqn:Hh; cbn [bind].
    + apply IH.
    + intros H. injection H as <-. exact (h2b_raises _ _ Hh).
  - apply nth_error_None in Hnth. unfold len in Hi. lia.
Qed.

Lemma append_hash160_data_extends (tx : Tx) (nulldata_index : Z)
    (indices : list Z) (data data' : bytes) :
  append_hash160_data tx nulldata_index indices data = Ok data' ->
  exists more, data' = data ++ more.
Proof.
  revert data. induction indices as [|index rest IH]; intros data;
    cbn [append_hash160_data].
  - intros H. injection H as <-. exists []. now rewrite app_nil_r.
  - destruct (get_hash160_data tx _) as [chunk|e]; cbn [bind]; [|discriminate].
    intros H. destruct (IH _ H) as [more ->].
    exists (chunk ++ more). now rewrite app_assoc.
Qed.

Lemma range_bounds (n i : Z) : In i (range n) -> 0 <= i < n.
Proof.
  unfold range. intros H. apply in_map_iff in H. destruct H as (k & <- & Hk).
  apply in_seq in Hk. lia.
Qed.

(** The check of the number of outputs keeps every [tx.txs_out[...]] that
    [get_data_blob] reads inside the list. *)
Lemma get_data_blob_raise_cases (tx : Tx) (e : exn) :
  get_data_blob tx = Raise e -> e = NoDataBlob \/ e = BinasciiError.
Proof.
  unfold get_data_blob, get_nulldata, _get_nulldata_output.
  destruct (find_nulldata 0 (txs_out tx)) as [[idx out]|] eqn:Hfind;
    [|intros H; injection H as <-; now left].
  apply find_nulldata_spec in Hfind. destruct Hfind as (Hidx & _).
  destruct (h2b (slice_from 10 (script out))) as [nulldata|e'] eqn:Hh; cbn [bind].
  - destruct (len nulldata <? _); [intros H; injection H as <-; now left|].
    destruct (_ <? _); [intros H; injection H as <-; now left|].
    destruct (_ =? _); [discriminate|].
    destruct (Z.gtb_spec
                (ceil_div (num_from_bytes SIZE_PREFIX_BYTES
                             (slice_to SIZE_PREFIX_BYTES nulldata)
                           - len (slice_from SIZE_PREFIX_BYTES nulldata)) 20
                 + idx + 1) (len (txs_out tx))) as [Hgt|Hle];
      [intros H; injection H as <-; now left|].
    destruct (append_hash160_data _ _ _ _) as [data|e'] eqn:Happ; cbn [bind];
      [discriminate|].
    intros H. injection H as <-. right.
    refine (append_hash160_data_raises _ _ _ _ _ _ Happ).
    apply Forall_forall. intros i Hi. apply range_bounds in Hi. lia.
  - pose proof (h2b_raises _ _ Hh) as ->. intros H. injection H as <-. now right.
Qed.

(** X7. When [get_data_blob] raises, it raises [NoDataBlob], or the error
    of [h2b] on a script that is not hex text. It never raises
    [NoNulldataOutput], and its check of the number of outputs keeps every
    [tx.txs_out[...]] it reads inside the list: no [IndexError]. *)
Theorem get_data_blob_raises (tx : Tx) (e : exn) :
  get_data_blob tx = Raise e -> decode_error e.
Proof. exact (get_data_blob_raise_cases tx e). Qed.

Lemma get_data_blob_raises_witness :
  get_data_blob (mkTx 1 [] [nulldata_txout (serialize_data [x00; x64])] 0)
  = Raise NoDataBlob
  /\ decode_error NoDataBlob.
Proof.
  split; [reflexivity|].
  apply (get_data_blob_raises
           (mkTx 1 [] [nulldata_txout (serialize_data [x00; x64])] 0) NoDataBlob).
  reflexivity.
Defined.

Lemma num_from_bytes_bound (k : Z) (data : bytes) :
  0 <= num_from_bytes k data < 256 ^ len data.
Proof.
  induction data as [|b data IH] using rev_ind.
  - cbn. lia.
  - rewrite num_from_bytes_snoc. unfold len in *. rewrite length_app.
    cbn [length]. rewrite Nat2Z.inj_add, Z.pow_add_r by lia.
    change (256 ^ Z.of_nat 1) with 256.
    pose proof (byte_to_Z_range b). nia.
Qed.

(** X8. What [get_data_blob] returns is read behind the two-byte size
    prefix of the null-data output: the bytes of that output after the
    prefix come first, and the result is never longer than the size the
    prefix declares, so never longer than 65535 bytes. *)
Theorem get_data_blob_returns (tx : Tx) (data : bytes) :
  get_data_blob tx = Ok data ->
  exists (index : Z) (nulldata more : bytes),
    get_nulldata tx = Ok (index, nulldata)
    /\ SIZE_PREFIX_BYTES <= len nulldata
    /\ data = slice_from SIZE_PREFIX_BYTES nulldata ++ more
    /\ len data <= num_from_bytes SIZE_PREFIX_BYTES
                     (slice_to SIZE_PREFIX_BYTES nulldata)
    /\ len data <= 65535.
Proof.
  unfold get_data_blob.
  destruct (get_nulldata tx) as [[index nulldata]|e] eqn:Hnull;
    [|destruct e; discriminate].
  destruct (Z.ltb_spec (len nulldata) SIZE_PREFIX_BYTES) as [|Hprefix];
    [discriminate|].
  set (size := num_from_bytes SIZE_PREFIX_BYTES (slice_to SIZE_PREFIX_BYTES nulldata)).
  set (data0 := slice_from SIZE_PREFIX_BYTES nulldata).
  assert (Hsize : size <= 65535).
  { pose proof (num_from_bytes_bound SIZE_PREFIX_BYTES
                  (slice_to SIZE_PREFIX_BYTES nulldata)) as Hb.
    replace (len (slice_to SIZE_PREFIX_BYTES nulldata)) with 2 in Hb.
    - fold size in Hb. change (256 ^ 2) with 65536 in Hb. lia.
    - unfold slice_to, len in *. rewrite length_firstn.
      change (Z.to_nat SIZE_PREFIX_BYTES) with 2%nat.
      change SIZE_PREFIX_BYTES with 2 in Hprefix. lia. }
  destruct (Z.ltb_spec size (len data0)) as [|Hge]; [discriminate|].
  destruct (Z.eqb_spec size (len data0)) as [Heq|Hne].
  - intros H. injection H as <-. exists index, nulldata, [].
    rewrite app_nil_r. repeat split; auto; lia.
  - destruct (_ >? _); [discriminate|].
    destruct (append_hash160_data _ _ _ _) as [data1|e] eqn:Happ; cbn [bind];
      [|discriminate].
    intros H. injection H as <-.
    destruct (append_hash160_data_extends _ _ _ _ _ Happ) as [more ->].
    exists index, nulldata, (slice_to (size - len data0) more).
    assert (Hcut : slice_to size (data0 ++ more)
                   = data0 ++ slice_to (size - len data0) more).
    { unfold slice_to, len. rewrite firstn_app.
      rewrite firstn_all2 by (unfold len in Hge; lia).
      do 2 f_equal. unfold len in Hge. lia. }
    assert (Hlen : len (slice_to size (data0 ++ more)) <= size).
    { unfold slice_to, len. rewrite length_firstn.
      pose proof (len_nonneg data0). lia. }
    repeat split; auto; lia.
Qed.

Lemma get_data_blob_returns_witness :
  exists (index : Z) (nulldata more : bytes),
    get_nulldata (fst (add_data_blob 40 empty_tx (repeat x07 100) 548))
    = Ok (index, nulldata)
    /\ SIZE_PREFIX_BYTES <= len nulldata
    /\ repeat x07 100 = slice_from SIZE_PREFIX_BYTES nulldata ++ more
    /\ len (repeat x07 100)
       <= num_from_bytes SIZE_PREFIX_BYTES (slice_to SIZE_PREFIX_BYTES nulldata)
    /\ len (repeat x07 100) <= 65535.
Proof.
  apply (get_data_blob_returns
           (fst (add_data_blob 40 empty_tx (repeat x07 100) 548))
           (repeat x07 100)).
  vm_compute. reflexivity.
Defined.

(** ** The first null-data output is the one that counts *)

Lemma find_nulldata_first (index : Z) (front : list TxOut) (out : TxOut)
    (rest : list TxOut) :
  Forall (fun o => is_nulldata o = false) front ->
  is_nulldata out = true ->
  find_nulldata index (front ++ out :: rest) = Some (index + len front, out).
Proof.
  intros Hfront Hout. apply find_nulldata_app_none; [|exact Hout].
  now apply find_nulldata_none_forall.
Qed.

(** X9. [_get_nulldata_output] gives the first output whose script starts
    with OP_RETURN, with its position, whatever follows it; and it gives
    nothing exactly when no output is one. *)
Theorem get_nulldata_output_first (tx : Tx) :
  (forall index out,
     _get_nulldata_output tx = Some (index, out)
     <-> exists front rest,
           txs_out tx = front ++ out :: rest
           /\ index = len front
           /\ Forall (fun o => is_nulldata o = false) front
           /\ is_nulldata out = true)
  /\ (_get_nulldata_output tx = None
      <-> Forall (fun o => is_nulldata o = false) (txs_out tx)).
Proof.
  unfold _get_nulldata_output. split; [|apply find_nulldata_none_forall].
  intros index out. split.
  - intros H. apply find_nulldata_spec in H.
    destruct H as (Hidx & Hnth & Hout & Hfront).
    rewrite Z.sub_0_r in Hnth, Hfront.
    apply nth_error_split in Hnth. destruct Hnth as (front & rest & Houts & Hlen).
    exists front, rest. rewrite Houts in Hfront.
    rewrite <- Hlen, firstn_app, Nat.sub_diag, firstn_all in Hfront.
    cbn [firstn] in Hfront. rewrite app_nil_r in Hfront.
    repeat split; auto. unfold len. lia.
  - intros (front & rest & Houts & -> & Hfront & Hout).
    rewrite Houts. now rewrite (find_nulldata_first 0 front out rest).
Qed.

(** ** Decoding after more outputs were appended *)

Lemma append_hash160_data_chunks_tail (dust_limit : Z) (tx : Tx)
    (nulldata_index : Z) (cs : list bytes) (tail : list TxOut) :
  Forall (fun c => (length c <= 20)%nat) cs ->
  forall (front : list TxOut) (j : nat) (data : bytes),
  txs_out tx = front ++ map (chunk_txout dust_limit) cs ++ tail ->
  len front = Z.of_nat j + nulldata_index + 1 ->
  append_hash160_data tx nulldata_index (map Z.of_nat (seq j (length cs))) data
  = Ok (data ++ concat (map pad_chunk cs)).
Proof.
  induction 1 as [|c cs Hc _ IH]; intros front j data Houts Hfront.
  - cbn. now rewrite app_nil_r.
  - cbn [length seq map append_hash160_data concat].
    unfold get_hash160_data, index_list. rewrite <- Hfront, Houts.
    unfold len. rewrite Nat2Z.id. cbn [map app].
    rewrite nth_error_app2, Nat.sub_diag by lia. cbn [nth_error bind].
    rewrite chunk_txout_data by exact Hc. cbn [bind].
    rewrite (IH (front ++ [chunk_txout dust_limit c])).
    + now rewrite <- app_assoc.
    + rewrite Houts. cbn [map app]. now rewrite <- app_assoc.
    + unfold len in *. rewrite length_app. simpl length. lia.
Qed.

(** Decoding reads the null-data output and the carriers that follow it,
    wherever they stand among the outputs. *)
Lemma get_data_blob_encoded (MAX_NULLDATA : Z) (tx : Tx) (data : bytes)
    (dust_limit : Z) (front tail : list TxOut) :
  SIZE_PREFIX_BYTES <= MAX_NULLDATA ->
  len data <= 65535 ->
  find_nulldata 0 front = None ->
  txs_out tx
  = front ++ nulldata_txout (serialize_data (nulldata_part MAX_NULLDATA data))
      :: map (chunk_txout dust_limit) (chunks (carried_part MAX_NULLDATA data) 20)
      ++ tail ->
  get_data_blob tx = Ok data.
Proof.
  intros Hmax Hlen Hnone Houts.
  pose proof (len_nonneg data) as Hnn.
  assert (Hsp : SIZE_PREFIX_BYTES = 2) by reflexivity.
  assert (Hrange : 0 <= len data < 2 ^ (SIZE_PREFIX_BYTES * 8))
    by (change (2 ^ (SIZE_PREFIX_BYTES * 8)) with 65536; lia).
  destruct (framed_prefix data Hrange) as [Hsize Hstrip].
  fold (framed data) in Hsize, Hstrip.
  pose proof (framed_length data) as Hframed.
  unfold get_data_blob, get_nulldata, _get_nulldata_output.
  rewrite Houts.
  rewrite (find_nulldata_app_none 0 _ _ _ Hnone (nulldata_txout_is_nulldata _)).
  rewrite nulldata_txout_data. cbn [bind]. rewrite <- Houts.
  revert Houts. unfold nulldata_part, carried_part.
  destruct (Z.leb_spec (len (framed data)) MAX_NULLDATA) as [Hfit|Hbig]; intros Houts.
  - destruct (Z.ltb_spec (len (framed data)) SIZE_PREFIX_BYTES) as [Hlt|_]; [lia|].
    rewrite Hsize, Hstrip, Z.ltb_irrefl, Z.eqb_refl. reflexivity.
  - set (nulldata := slice_to MAX_NULLDATA (framed data)) in *.
    set (rest := slice_from MAX_NULLDATA (framed data)) in *.
    assert (Hsplit : framed data = nulldata ++ rest)
      by (unfold nulldata, rest, slice_to, slice_from; now rewrite firstn_skipn).
    assert (Hnl : len nulldata = MAX_NULLDATA).
    { unfold nulldata, slice_to, len in *. rewrite length_firstn. lia. }
    assert (Hrl : len rest = len (framed data) - MAX_NULLDATA).
    { unfold rest, slice_from, len in *. rewrite length_skipn. lia. }
    assert (Hpre : slice_to SIZE_PREFIX_BYTES nulldata
                   = slice_to SIZE_PREFIX_BYTES (framed data)).
    { rewrite Hsplit. unfold slice_to, len in *.
      rewrite firstn_app.
      replace (Z.to_nat SIZE_PREFIX_BYTES - length nulldata)%nat with 0%nat by lia.
      cbn [firstn]. now rewrite app_nil_r. }
    assert (Hdata : data = slice_from SIZE_PREFIX_BYTES nulldata ++ rest).
    { rewrite <- Hstrip at 1. rewrite Hsplit. unfold slice_from, len in *.
      rewrite skipn_app.
      replace (Z.to_nat SIZE_PREFIX_BYTES - length nulldata)%nat with 0%nat by lia.
      reflexivity. }
    set (data0 := slice_from SIZE_PREFIX_BYTES nulldata) in *.
    assert (Hd0 : len data0 = MAX_NULLDATA - SIZE_PREFIX_BYTES).
    { unfold data0, slice_from, len in *. rewrite length_skipn. lia. }
    rewrite Hnl. destruct (Z.ltb_spec MAX_NULLDATA SIZE_PREFIX_BYTES); [lia|].
    rewrite Hpre, Hsize, Hd0.
    destruct (Z.ltb_spec (len data) (MAX_NULLDATA - SIZE_PREFIX_BYTES)); [lia|].
    destruct (Z.eqb_spec (len data) (MAX_NULLDATA - SIZE_PREFIX_BYTES)); [lia|].
    replace (len data - (MAX_NULLDATA - SIZE_PREFIX_BYTES)) with (len rest) by lia.
    assert (Hcnt : ceil_div (len rest) 20 + (0 + len front) + 1 <= len (txs_out tx)).
    { pose proof (ceil_div_nonneg (len rest) 20 (len_nonneg rest) eq_refl) as Hcn.
      rewrite Houts. unfold len at 3. rewrite length_app. cbn [length].
      rewrite length_app, length_map. unfold chunks. rewrite length_map, length_seq.
      unfold len in Hcn |- *. lia. }
    destruct (Z.gtb_spec (ceil_div (len rest) 20 + (0 + len front) + 1)
                (len (txs_out tx))); [lia|].
    unfold range.
    replace (Z.to_nat (ceil_div (len rest) 20)) with (length (chunks rest 20))
      by (unfold chunks; now rewrite length_map, length_seq).
    rewrite (append_hash160_data_chunks_tail dust_limit _ _ (chunks rest 20) tail
               (chunks_length_le rest)
               (front ++ [nulldata_txout (serialize_data nulldata)]) 0 data0).
    + cbn [bind]. destruct (chunks_concat_padded rest) as [k Hk]. rewrite Hk.
      rewrite app_assoc, <- Hdata. unfold slice_to, len.
      rewrite Nat2Z.id, firstn_app, Nat.sub_diag, firstn_all. cbn [firstn].
      now rewrite app_nil_r.
    + rewrite Houts. now rewrite <- app_assoc.
    + unfold len. rewrite length_app. simpl length. lia.
Qed.

(** X10. What is appended to the outputs after [add_data_blob], and what
    happens to the inputs, the version and the lock time, does not disturb
    the blob: for a payload of at most 65535 bytes written into a
    transaction without a null-data output, every transaction whose outputs
    are those [add_data_blob] left followed by any further outputs decodes
    to the payload. *)
Theorem data_blob_survives_appended_outputs (MAX_NULLDATA : Z) (tx tx' : Tx)
    (data : bytes) (dust_limit : Z) (later : Tx) (more : list TxOut) :
  SIZE_PREFIX_BYTES <= MAX_NULLDATA ->
  _get_nulldata_output tx = None ->
  len data <= 65535 ->
  add_data_blob MAX_NULLDATA tx data dust_limit = (tx', None) ->
  txs_out later = txs_out tx' ++ more ->
  get_data_blob later = Ok data.
Proof.
  intros Hmax Hnone Hlen Hadd Hlater.
  rewrite add_data_blob_outputs in Hadd by (assumption || lia).
  injection Hadd as <-. cbn [txs_out] in Hlater.
  apply (get_data_blob_encoded MAX_NULLDATA later data dust_limit (txs_out tx) more);
    try assumption.
  rewrite Hlater, <- app_assoc. reflexivity.
Qed.

Lemma data_blob_survives_appended_outputs_witness :
  get_data_blob
    (mkTx 1 [mkTxIn [x01] 0]
       (txs_out (fst (add_data_blob 40 empty_tx (repeat x07 100) 548))
        ++ [mkTxOut 1000 (txt "OP_RETURN 00")])
       0)
  = Ok (repeat x07 100).
Proof.
  apply (data_blob_survives_appended_outputs 40 empty_tx
           (fst (add_data_blob 40 empty_tx (repeat x07 100) 548))
           (repeat x07 100) 548 _ [mkTxOut 1000 (txt "OP_RETURN 00")]);
    [vm_compute; discriminate | reflexivity | vm_compute; discriminate
     | reflexivity | reflexivity].
Defined.

(** ** Funding a transaction *)

Section FundingFacts.

Context {service : Service} {pycoin : Pycoin}.

(** [add_inputs] only ever appends to the outputs. *)
Lemma add_inputs_outputs (testnet : bool) (tx : Tx) (keys : list Key.t)
    (change_address : option address) (fee : Z) :
  exists more,
    txs_out (fst (add_inputs testnet tx keys change_address fee))
    = txs_out tx ++ more.
Proof.
  unfold add_inputs.
  destruct (find_txins _ _) as [txins total].
  destruct (total <? _); [exists []; cbn; now rewrite app_nil_r|].
  match goal with |- context [match ?c with Ok _ => _ | Raise _ => _ end] =>
    destruct c as [a|e] end.
  - eexists. cbn. reflexivity.
  - exists []. cbn. now rewrite app_nil_r.
Qed.

(** X11. A data blob written by [add_data_blob] is still read back after
    [add_inputs] was called on the transaction, whether that call returned
    or raised: the inputs it adds and the change output it appends leave
    the null-data output and its carriers where they were. *)
Theorem add_inputs_keeps_data_blob (MAX_NULLDATA : Z) (tx tx' : Tx)
    (data : bytes) (dust_limit : Z) (testnet : bool) (keys : list Key.t)
    (change_address : option address) (fee : Z) :
  SIZE_PREFIX_BYTES <= MAX_NULLDATA ->
  _get_nulldata_output tx = None ->
  len data <= 65535 ->
  add_data_blob MAX_NULLDATA tx data dust_limit = (tx', None) ->
  get_data_blob (fst (add_inputs testnet tx' keys change_address fee)) = Ok data.
Proof.
  intros Hmax Hnone Hlen Hadd.
  rewrite add_data_blob_outputs in Hadd by (assumption || lia).
  injection Hadd as <-.
  destruct (add_inputs_outputs testnet
              (mkTx (version tx) (txs_in tx)
                 (txs_out tx
                  ++ nulldata_txout (serialize_data (nulldata_part MAX_NULLDATA data))
                     :: map (chunk_txout dust_limit)
                          (chunks (carried_part MAX_NULLDATA data) 20))
                 (lock_time tx))
              keys change_address fee) as [more Hmore].
  cbn [txs_out] in Hmore.
  apply (get_data_blob_encoded MAX_NULLDATA _ data dust_limit (txs_out tx) more);
    try assumption.
  rewrite Hmore, <- app_assoc. reflexivity.
Qed.

(** X12. When [add_inputs] returns, the transaction has the inputs that
    [find_txins] selected appended to its inputs and one more output, the
    change: it pays what the selected inputs are worth beyond the outputs
    and the fee, which is not negative, to the change address given or else
    to the address of the first key. Outputs and fee then add up to exactly
    the value of the selected inputs. *)
Theorem add_inputs_balance (testnet : bool) (tx tx' : Tx) (keys : list Key.t)
    (change_address : option address) (fee : Z) :
  add_inputs testnet tx keys change_address fee = (tx', None) ->
  let required := sum (map coin_value (txs_out tx)) + fee in
  exists (txins : list TxIn) (total : Z) (change_to : address),
    find_txins (map Key.address keys) required = (txins, total)
    /\ required <= total
    /\ version tx' = version tx
    /\ lock_time tx' = lock_time tx
    /\ txs_in tx' = txs_in tx ++ txins
    /\ txs_out tx'
       = txs_out tx ++ [deserialize_txout testnet change_to (total - required)]
    /\ (match change_address with
        | Some (c :: a) => change_to = c :: a
        | _ => nth_error (map Key.address keys) 0 = Some change_to
        end)
    /\ sum (map coin_value (txs_out tx')) + fee = total.
Proof.
  cbv zeta. unfold add_inputs.
  destruct (find_txins _ _) as [txins total].
  destruct (Z.ltb_spec total (sum (map coin_value (txs_out tx)) + fee))
    as [Hlt|Hge]; [discriminate|].
  assert (Hdone : forall change_to,
            sum (map coin_value
                   (txs_out tx
                    ++ [deserialize_txout testnet change_to
                          (total - (sum (map coin_value (txs_out tx)) + fee))]))
            + fee = total).
  { intros change_to. rewrite map_app, sum_app. cbn [map deserialize_txout coin_value].
    rewrite sum_cons, sum_nil. lia. }
  destruct change_address as [[|c a]|].
  - unfold index_list. change (Z.to_nat 0) with 0%nat.
    destruct (nth_error (map Key.address keys) 0) as [first|] eqn:Hfirst;
      [|discriminate].
    intros H. injection H as <-. exists txins, total, first.
    cbn [version lock_time txs_in txs_out append_out]. repeat split; auto.
  - intros H. injection H as <-. exists txins, total, (c :: a).
    cbn [version lock_time txs_in txs_out append_out]. repeat split; auto.
  - unfold index_list. change (Z.to_nat 0) with 0%nat.
    destruct (nth_error (map Key.address keys) 0) as [first|] eqn:Hfirst;
      [|discriminate].
    intros H. injection H as <-. exists txins, total, first.
    cbn [version lock_time txs_in txs_out append_out]. repeat split; auto.
Qed.

(** X13. Without keys and without a change address [add_inputs] cannot
    return: it raises [InsufficientFunds] with the transaction untouched,
    or, when the service's spendables for no address at all cover outputs
    and fee, the [IndexError] of [addresses[0]], and then the inputs have
    already been added to the transaction. *)
Theorem add_inputs_no_change_address (testnet : bool) (tx : Tx)
    (change_address : option address) (fee : Z) :
  change_address = None \/ change_address = Some [] ->
  let required := sum (map coin_value (txs_out tx)) + fee in
  let txins := fst (find_txins [] required) in
  let total := snd (find_txins [] required) in
  (total < required
   /\ add_inputs testnet tx [] change_address fee
      = (tx, Some (InsufficientFunds required total)))
  \/ (required <= total
      /\ add_inputs testnet tx [] change_address fee
         = (mkTx (version tx) (txs_in tx ++ txins) (txs_out tx) (lock_time tx),
            Some IndexError)).
Proof.
  intros Hchange. unfold add_inputs. cbv zeta. cbn [map]. unfold address in *.
  destruct (find_txins _ _) as [txins total]. cbn [fst snd].
  destruct (Z.ltb_spec total (sum (map coin_value (txs_out tx)) + fee))
    as [Hlt|Hge]; [left; now split|].
  right. split; [exact Hge|].
  destruct Hchange as [-> | ->]; reflexivity.
Qed.

End FundingFacts.

Lemma add_inputs_keeps_data_blob_witness :
  get_data_blob
    (fst (@add_inputs (Double.fixed_service (map Double.spendable [3000; 5000; 1000]))
            Double.plain_pycoin false
            (fst (add_data_blob 40 empty_tx (repeat x07 100) 548))
            [Double.key1] None 1000))
  = Ok (repeat x07 100).
Proof.
  apply (@add_inputs_keeps_data_blob
           (Double.fixed_service (map Double.spendable [3000; 5000; 1000]))
           Double.plain_pycoin 40 empty_tx
           (fst (add_data_blob 40 empty_tx (repeat x07 100) 548))
           (repeat x07 100) 548 false [Double.key1] None 1000);
    [vm_compute; discriminate | reflexivity | vm_compute; discriminate
     | reflexivity].
Defined.

Lemma add_inputs_balance_witness :
  let service := Double.fixed_service (map Double.spendable [3000; 5000; 1000]) in
  let tx' := fst (@add_inputs service Double.plain_pycoin false empty_tx
                    [Double.key1] None 4000) in
  let required := sum (map coin_value (txs_out empty_tx)) + 4000 in
  exists (txins : list TxIn) (total : Z) (change_to : address),
    @find_txins service (map Key.address [Double.key1]) required = (txins, total)
    /\ required <= total
    /\ version tx' = version empty_tx
    /\ lock_time tx' = lock_time empty_tx
    /\ txs_in tx' = txs_in empty_tx ++ txins
    /\ txs_out tx'
       = txs_out empty_tx
         ++ [@deserialize_txout Double.plain_pycoin false change_to
               (total - required)]
    /\ nth_error (map Key.address [Double.key1]) 0 = Some change_to
    /\ sum (map coin_value (txs_out tx')) + 4000 = total.
Proof.
  cbv zeta.
  apply (@add_inputs_balance
           (Double.fixed_service (map Double.spendable [3000; 5000; 1000]))
           Double.plain_pycoin false empty_tx
           (fst (@add_inputs
                   (Double.fixed_service (map Double.spendable [3000; 5000; 1000]))
                   Double.plain_pycoin false empty_tx [Double.key1] None 4000))
           [Double.key1] None 4000).
  reflexivity.
Defined.

Lemma add_inputs_no_change_address_witness :
  @add_inputs (Double.fixed_service []) Double.plain_pycoin false empty_tx []
    None 10000
  = (empty_tx, Some (InsufficientFunds 10000 0)).
Proof.
  destruct (@add_inputs_no_change_address (Double.fixed_service [])
              Double.plain_pycoin false empty_tx None 10000 (or_introl eq_refl))
    as [[_ H]|[Hge _]].
  - exact H.
  - vm_compute in Hge. exfalso. now apply Hge.
Defined.

(** ** Reading the header byte of a signature *)

Lemma text_eqb_eq (a b : list ascii) : text_eqb a b = true <-> a = b.
Proof.
  revert b. induction a as [|x a IH]; intros [|y b]; cbn [text_eqb];
    try (split; [discriminate | discriminate]); [tauto|].
  rewrite andb_true_iff, Ascii.eqb_eq, IH. split.
  - intros [-> ->]. reflexivity.
  - intros H. injection H as -> ->. now split.
Qed.

Lemma byte_of_to_Z (b : byte) : byte_of_Z (byte_to_Z b) = b.
Proof. destruct b; reflexivity. Qed.

(** The header bytes [_parse_signature] accepts are 27 to 34, and such a
    byte is the one [_add_recovery_params] writes for the recovery id and
    the flag read from it. *)
Lemma header_byte_accepted (first : byte) :
  (byte_to_Z first - 27 =? Z.land (byte_to_Z first - 27) 7) = true ->
  27 <= byte_to_Z first <= 34
  /\ 0 <= Z.land (byte_to_Z first - 27) 3 <= 3
  /\ first = byte_of_Z (27 + Z.land (byte_to_Z first - 27) 3
                        + (if negb (Z.land (byte_to_Z first - 27) 4 =? 0)
                           then 4 else 0)).
Proof.
  destruct first; intros H; vm_compute in H; try discriminate H;
    vm_compute; repeat split; congruence.
Qed.

Lemma header_byte_refused (first : byte) :
  byte_to_Z first < 27 \/ 34 < byte_to_Z first ->
  byte_to_Z first - 27 <> Z.land (byte_to_Z first - 27) 7.
Proof.
  intros Hout Heq. apply Z.eqb_eq in Heq.
  apply header_byte_accepted in Heq. lia.
Qed.

Section HeaderFacts.

Context {pycoin : Pycoin} {ecdsa : Ecdsa}.

Variable modular_sqrt : Z -> Z -> Z.

Lemma parse_signature_inv (sig rsdata : bytes) (r s i : Z) (compressed : bool) :
  _parse_signature sig order = Ok (rsdata, r, s, i, compressed) ->
  sig = _add_recovery_params i compressed rsdata
  /\ 0 <= i <= 3
  /\ sigdecode_string rsdata order = Ok (r, s).
Proof.
  unfold _parse_signature.
  destruct (sigdecode_string (slice_from 1 sig) order) as [[r' s']|e] eqn:Hrs;
    cbn [bind]; [|discriminate].
  destruct sig as [|first rest]; [discriminate|].
  unfold index_list. cbn [Z.to_nat nth_error bind].
  destruct (byte_to_Z first - 27 =? Z.land (byte_to_Z first - 27) 7) eqn:Hbits;
    cbn [negb]; [|discriminate].
  intros H. injection H as <- <- <- <- <-.
  destruct (header_byte_accepted first Hbits) as (_ & Hi & Hfirst).
  split; [|split; [exact Hi | exact Hrs]].
  unfold _add_recovery_params. rewrite <- Hfirst. reflexivity.
Qed.

(** X14. A signature that [_parse_signature] accepts is one that
    [_add_recovery_params] writes: its first byte is 27 plus a recovery id
    from 0 to 3, plus 4 when the compressed flag is read, and the bytes
    after it are the ones [sigdecode_string] decoded. *)
Theorem parse_signature_header (sig rsdata : bytes) (r s i : Z)
    (compressed : bool) :
  _parse_signature sig order = Ok (rsdata, r, s, i, compressed) ->
  sig = _add_recovery_params i compressed rsdata
  /\ 0 <= i <= 3
  /\ sigdecode_string rsdata order = Ok (r, s)
  /\ (exists first, index_list sig 0 = Ok first /\ 27 <= byte_to_Z first <= 34).
Proof.
  intros H. destruct (parse_signature_inv _ _ _ _ _ _ H) as (Hsig & Hi & Hrs).
  repeat split; try assumption; try lia.
  rewrite Hsig. unfold _add_recovery_params, index_list.
  cbn [Z.to_nat nth_error]. eexists. split; [reflexivity|].
  rewrite byte_to_of_Z.
  assert (Hc : 0 <= (if compressed then 4 else 0) <= 4) by (destruct compressed; lia).
  rewrite Z.mod_small by lia. lia.
Qed.

(** X15. A signature whose first byte is below 27 or above 34 is never
    accepted: when the bytes after it decode to [r] and [s],
    [verify_signature] returns [False], whatever the address and the data.
    The bytes below 27 are refused too, the parameter being negative. *)
Theorem verify_signature_header_out_of_range (testnet : bool)
    (address : address) (sig data : bytes) (r s : Z) (first : byte) :
  sigdecode_string (slice_from 1 sig) order = Ok (r, s) ->
  index_list sig 0 = Ok first ->
  byte_to_Z first < 27 \/ 34 < byte_to_Z first ->
  verify_signature modular_sqrt testnet address sig data = Ok false.
Proof.
  intros Hrs Hfirst Hout.
  apply (verify_signature_bad_header modular_sqrt testnet address sig data r s first);
    try assumption.
  now apply header_byte_refused.
Qed.

(** X16. When [verify_signature] returns [True], the signature is a header
    byte for a recovery id and a compressed flag followed by data that
    decodes to [r] and [s]; the public key was recovered from them and the
    digest of the data, python-ecdsa accepted it as a key and accepted the
    raw signature under it; and the address given is the address of that
    recovered key, for the flag of the header. *)
Theorem verify_signature_accepts (testnet : bool) (address : address)
    (sig data : bytes) :
  verify_signature modular_sqrt testnet address sig data = Ok true ->
  exists (i : Z) (compressed : bool) (rsdata : bytes) (r s : Z) (Q : point)
         (pub : VerifyingKey) (valid : bool),
    sig = _add_recovery_params i compressed rsdata
    /\ 0 <= i <= 3
    /\ sigdecode_string rsdata order = Ok (r, s)
    /\ _recover_public_key modular_sqrt generator order r s i
         (bytestoint (_bitcoin_message_hash data)) = Ok Q
    /\ from_public_point Q = Ok pub
    /\ verify_digest pub rsdata (_bitcoin_message_hash data) = Ok valid
    /\ address = _public_pair_to_address testnet (point_x Q, point_y Q) compressed.
Proof.
  unfold verify_signature.
  destruct (_parse_signature sig order) as [[[[[rsdata r] s] i] compressed]|e]
    eqn:Hparse; cbn [bind]; [|destruct e; discriminate].
  destruct (_recover_public_key _ _ _ _ _ _ _) as [Q|e] eqn:HQ; cbn [bind];
    [|destruct e; discriminate].
  destruct (from_public_point Q) as [pub|e] eqn:Hpub; cbn [bind];
    [|destruct e; discriminate].
  destruct (verify_digest pub rsdata _) as [valid|e] eqn:Hvalid; cbn [bind];
    [|destruct e; discriminate].
  cbn [except_false]. intros H. injection H as H. apply text_eqb_eq in H.
  destruct (parse_signature_inv _ _ _ _ _ _ Hparse) as (Hsig & Hi & Hrs).
  exists i, compressed, rsdata, r, s, Q, pub, valid. repeat split; assumption || lia.
Qed.

End HeaderFacts.

Lemma parse_signature_header_witness :
  x20 :: Double.sigencode 176 171
  = _add_recovery_params 1 true (Double.sigencode 176 171)
  /\ 0 <= 1 <= 3
  /\ @sigdecode_string Double.small_ecdsa (Double.sigencode 176 171)
       (@order Double.small_ecdsa) = Ok (176, 171)
  /\ (exists first,
        index_list (x20 :: Double.sigencode 176 171) 0 = Ok first
        /\ 27 <= byte_to_Z first <= 34).
Proof.
  apply (@parse_signature_header Double.small_ecdsa
           (x20 :: Double.sigencode 176 171) (Double.sigencode 176 171)
           176 171 1 true).
  vm_compute. reflexivity.
Defined.

Lemma verify_signature_header_out_of_range_witness :
  @verify_signature Double.plain_pycoin Double.small_ecdsa Double.sqrt_mod false
    (Key.address (Double.key 5)) (x1a :: Double.sigencode 176 171)
    (ascii_bytes "hello")
  = Ok false.
Proof.
  apply (@verify_signature_header_out_of_range Double.plain_pycoin
           Double.small_ecdsa Double.sqrt_mod false (Key.address (Double.key 5))
           (x1a :: Double.sigencode 176 171) (ascii_bytes "hello") 176 171 x1a).
  - vm_compute. reflexivity.
  - reflexivity.
  - left. vm_compute. reflexivity.
Defined.

Lemma verify_signature_accepts_witness :
  exists (i : Z) (compressed : bool) (rsdata : bytes) (r s : Z)
         (Q : @point Double.small_ecdsa) (pub : @VerifyingKey Double.small_ecdsa)
         (valid : bool),
    x20 :: Double.sigencode 176 171 = _add_recovery_params i compressed rsdata
    /\ 0 <= i <= 3
    /\ @sigdecode_string Double.small_ecdsa rsdata (@order Double.small_ecdsa)
       = Ok (r, s)
    /\ @_recover_public_key Double.small_ecdsa Double.sqrt_mod
         (@generator Double.small_ecdsa) (@order Double.small_ecdsa) r s i
         (bytestoint (@_bitcoin_message_hash Double.plain_pycoin
                        (ascii_bytes "hello"))) = Ok Q
    /\ @from_public_point Double.small_ecdsa Q = Ok pub
    /\ @verify_digest Double.small_ecdsa pub rsdata
         (@_bitcoin_message_hash Double.plain_pycoin (ascii_bytes "hello"))
       = Ok valid
    /\ Key.address (Double.key 5)
       = @_public_pair_to_address Double.plain_pycoin false
           (@point_x Double.small_ecdsa Q, @point_y Double.small_ecdsa Q)
           compressed.
Proof.
  apply (@verify_signature_accepts Double.plain_pycoin Double.small_ecdsa
           Double.sqrt_mod false (Key.address (Double.key 5))
           (x20 :: Double.sigencode 176 171) (ascii_bytes "hello")).
  vm_compute. reflexivity.
Defined.

(** ** What sign_data returns and raises *)

Section SigningFacts.

Context {pycoin : Pycoin} {ecdsa : Ecdsa}.

Variable modular_sqrt : Z -> Z -> Z.

Lemma sign_try_flags_inv (testnet : bool) (address : address)
    (data sigdata : bytes) (i : Z) (flags : list bool) (found : option bytes) :
  sign_try_flags modular_sqrt testnet address data sigdata i flags = Ok found ->
  let row := map (fun compressed => _add_recovery_params i compressed sigdata)
               flags in
  match found with
  | None =>
      Forall (fun c => verify_signature modular_sqrt testnet address c data
                       = Ok false) row
  | Some sig =>
      exists before after,
        row = before ++ sig :: after
        /\ Forall (fun c => verify_signature modular_sqrt testnet address c data
                            = Ok false) before
        /\ verify_signature modular_sqrt testnet address sig data = Ok true
  end.
Proof.
  cbv zeta. induction flags as [|c flags IH]; cbn [sign_try_flags map].
  - intros H. injection H as <-. constructor.
  - destruct (verify_signature modular_sqrt testnet address
                (_add_recovery_params i c sigdata) data) as [[|]|e] eqn:Hc;
      cbn [bind]; [| |discriminate].
    + intros H. injection H as <-. exists [], (map (fun compressed =>
        _add_recovery_params i compressed sigdata) flags).
      repeat split; auto.
    + intros H. specialize (IH H). destruct found as [sig|].
      * destruct IH as (before & after & Hrow & Hbefore & Hsig).
        exists (_add_recovery_params i c sigdata :: before), after.
        rewrite Hrow. repeat split; auto.
      * now constructor.
Qed.

Lemma sign_try_ids_inv (testnet : bool) (address : address)
    (data sigdata : bytes) (ids : list Z) (sig : bytes) :
  sign_try_ids modular_sqrt testnet address data sigdata ids = Ok sig ->
  exists before after,
    flat_map (fun i => map (fun compressed =>
                              _add_recovery_params i compressed sigdata)
                           [true; false]) ids
    = before ++ sig :: after
    /\ Forall (fun c => verify_signature modular_sqrt testnet address c data
                        = Ok false) before
    /\ verify_signature modular_sqrt testnet address sig data = Ok true.
Proof.
  induction ids as [|i ids IH]; cbn [sign_try_ids flat_map]; [discriminate|].
  destruct (sign_try_flags modular_sqrt testnet address data sigdata i
              [true; false]) as [found|e] eqn:Hrow; cbn [bind]; [|discriminate].
  apply sign_try_flags_inv in Hrow. cbv zeta in Hrow.
  destruct found as [sig'|].
  - intros H. injection H as ->.
    destruct Hrow as (before & after & Hsplit & Hbefore & Hsig).
    exists before, (after ++ flat_map (fun i => map (fun compressed =>
      _add_recovery_params i compressed sigdata) [true; false]) ids).
    rewrite Hsplit, <- app_assoc. repeat split; auto.
  - intros H. destruct (IH H) as (before & after & Hsplit & Hbefore & Hsig).
    exists (map (fun compressed => _add_recovery_params i compressed sigdata)
              [true; false] ++ before), after.
    rewrite Hsplit, <- app_assoc. repeat split; auto.
    apply Forall_app. now split.
Qed.

Lemma sign_try_ids_none (testnet : bool) (address : address)
    (data sigdata : bytes) (ids : list Z) :
  Forall (fun c => verify_signature modular_sqrt testnet address c data = Ok false)
    (flat_map (fun i => map (fun compressed =>
                               _add_recovery_params i compressed sigdata)
                            [true; false]) ids) ->
  sign_try_ids modular_sqrt testnet address data sigdata ids
  = Raise (Exception_ "Failed to serialize signature!").
Proof.
  induction ids as [|i ids IH]; cbn [sign_try_ids flat_map]; [reflexivity|].
  intros H. apply Forall_app in H. destruct H as [Hrow Hrest].
  rewrite (sign_try_flags_none modular_sqrt _ _ _ _ _ _ Hrow). cbn [bind].
  now apply IH.
Qed.

Lemma sign_try_flags_raises (testnet : bool) (address : address)
    (data sigdata : bytes) (i : Z) (flags : list bool)
    (before : list bytes) (sig : bytes) (after : list bytes) (e : exn) :
  map (fun compressed => _add_recovery_params i compressed sigdata) flags
  = before ++ sig :: after ->
  Forall (fun c => verify_signature modular_sqrt testnet address c data = Ok false)
    before ->
  verify_signature modular_sqrt testnet address sig data = Raise e ->
  sign_try_flags modular_sqrt testnet address data sigdata i flags = Raise e.
Proof.
  revert before. induction flags as [|c flags IH]; intros before Hsplit Hbefore Hsig.
  - destruct before; discriminate Hsplit.
  - cbn [map] in Hsplit. cbn [sign_try_flags]. destruct before as [|b before].
    + cbn [app] in Hsplit. injection Hsplit as Hc _. rewrite Hc, Hsig. reflexivity.
    + cbn [app] in Hsplit. injection Hsplit as Hc Hrest.
      inversion Hbefore as [|? ? Hb Hbefore']; subst b.
      rewrite Hb. cbn [bind]. now apply (IH before).
Qed.

(** X17. Whatever [sign_data] returns was accepted by [verify_signature]
    for the key's own address and the data signed. It is one of the eight
    header candidates for the signature data, 65 bytes when python-ecdsa
    gave 64, and every candidate tried before it was rejected with
    [False]. *)
Theorem sign_data_returns (testnet : bool) (data : bytes) (key : Key.t)
    (sig : bytes) :
  sign_data modular_sqrt testnet data key = Ok sig ->
  verify_signature modular_sqrt testnet (Key.address key) sig data = Ok true
  /\ exists sigdata before after,
       sign_digest_deterministic (Key.secret_exponent key)
         (_bitcoin_message_hash data) = Ok sigdata
       /\ candidates sigdata = before ++ sig :: after
       /\ len sig = 1 + len sigdata
       /\ Forall (fun c => verify_signature modular_sqrt testnet (Key.address key)
                             c data = Ok false) before.
Proof.
  unfold sign_data.
  destruct (sign_digest_deterministic _ _) as [sigdata|e] eqn:Hsign; cbn [bind];
    [|discriminate].
  intros H. apply sign_try_ids_inv in H.
  destruct H as (before & after & Hsplit & Hbefore & Hsig).
  split; [exact Hsig|]. exists sigdata, before, after.
  fold (candidates sigdata) in Hsplit.
  repeat split; auto.
  apply candidates_length. rewrite Hsplit. apply in_elt.
Qed.

(** X18. How [sign_data] fails once python-ecdsa has signed: when all
    eight candidates are rejected it raises
    [Exception("Failed to serialize signature!")]; and when
    [verify_signature] raises on a candidate, the earlier ones having been
    rejected, that exception leaves [sign_data] and the candidates after it
    are not tried. *)
Theorem sign_data_raises (testnet : bool) (data : bytes) (key : Key.t)
    (sigdata : bytes) :
  sign_digest_deterministic (Key.secret_exponent key) (_bitcoin_message_hash data)
  = Ok sigdata ->
  (Forall (fun c => verify_signature modular_sqrt testnet (Key.address key) c data
                    = Ok false) (candidates sigdata) ->
   sign_data modular_sqrt testnet data key
   = Raise (Exception_ "Failed to serialize signature!"))
  /\ (forall before sig after e,
        candidates sigdata = before ++ sig :: after ->
        Forall (fun c => verify_signature modular_sqrt testnet (Key.address key)
                           c data = Ok false) before ->
        verify_signature modular_sqrt testnet (Key.address key) sig data = Raise e ->
        sign_data modular_sqrt testnet data key = Raise e).
Proof.
  intros Hsign. unfold sign_data. rewrite Hsign. cbn [bind]. split.
  - intros Hall. now apply sign_try_ids_none.
  - intros before sig after e. unfold candidates.
    generalize (range 4) as ids. intros ids. revert before.
    induction ids as [|i ids IH]; intros before Hsplit Hbefore Hsig.
    + destruct before; discriminate Hsplit.
    + cbn [flat_map] in Hsplit. cbn [sign_try_ids].
      set (row := map (fun compressed => _add_recovery_params i compressed sigdata)
                    [true; false]) in *.
      destruct (Nat.lt_ge_cases (length before) (length row)) as [Hin|Hout].
      * assert (Hrow : row = before ++ sig
                               :: firstn (length row - length before - 1) after).
        { apply (f_equal (firstn (length row))) in Hsplit.
          rewrite firstn_app, Nat.sub_diag, firstn_all in Hsplit.
          cbn [firstn] in Hsplit. rewrite app_nil_r in Hsplit.
          rewrite Hsplit at 1. rewrite firstn_app.
          rewrite firstn_all2 by lia. f_equal.
          destruct (length row - length before)%nat as [|m] eqn:E; [lia|].
          cbn [firstn]. do 2 f_equal. lia. }
        rewrite (sign_try_flags_raises _ _ _ _ _ _ _ _ _ _ Hrow Hbefore Hsig).
        reflexivity.
      * assert (Hrow : before = row ++ skipn (length row) before).
        { apply (f_equal (firstn (length row))) in Hsplit.
          rewrite firstn_app, Nat.sub_diag, firstn_all in Hsplit.
          cbn [firstn] in Hsplit. rewrite app_nil_r in Hsplit.
          rewrite firstn_app in Hsplit.
          replace (length row - length before)%nat with 0%nat in Hsplit by lia.
          cbn [firstn] in Hsplit. rewrite app_nil_r in Hsplit.
          rewrite Hsplit at 1. apply eq_sym, firstn_skipn. }
        rewrite Hrow in Hbefore. apply Forall_app in Hbefore.
        destruct Hbefore as [Hfail Hbefore].
        rewrite (sign_try_flags_none modular_sqrt _ _ _ _ _ _ Hfail). cbn [bind].
        apply (IH (skipn (length row) before)); [|exact Hbefore|exact Hsig].
        rewrite Hrow, <- app_assoc in Hsplit.
        now apply app_inv_head in Hsplit.
Qed.

End SigningFacts.

Lemma sign_data_returns_witness :
  @verify_signature Double.plain_pycoin Double.small_ecdsa Double.sqrt_mod false
    (Key.address (Double.key 5))
    (_add_recovery_params 1 true (Double.sigencode 176 171)) (ascii_bytes "hello")
  = Ok true
  /\ exists sigdata before after,
       @sign_digest_deterministic Double.small_ecdsa
         (Key.secret_exponent (Double.key 5))
         (@_bitcoin_message_hash Double.plain_pycoin (ascii_bytes "hello"))
       = Ok sigdata
       /\ candidates sigdata
          = before ++ _add_recovery_params 1 true (Double.sigencode 176 171) :: after
       /\ len (_add_recovery_params 1 true (Double.sigencode 176 171))
          = 1 + len sigdata
       /\ Forall (fun c => @verify_signature Double.plain_pycoin Double.small_ecdsa
                             Double.sqrt_mod false (Key.address (Double.key 5)) c
                             (ascii_bytes "hello") = Ok false) before.
Proof.
  apply (@sign_data_returns Double.plain_pycoin Double.small_ecdsa Double.sqrt_mod
           false (ascii_bytes "hello") (Double.key 5)
           (_add_recovery_params 1 true (Double.sigencode 176 171))).
  vm_compute. reflexivity.
Defined.

(** ** Broadcast messages, written and read back *)

Lemma slice_to_app {A} (n : Z) (a b : list A) :
  len a = n -> slice_to n (a ++ b) = a.
Proof.
  intros <-. unfold slice_to, len. rewrite Nat2Z.id, firstn_app, Nat.sub_diag.
  rewrite firstn_all. cbn [firstn]. now rewrite app_nil_r.
Qed.

Lemma slice_from_app {A} (n : Z) (a b : list A) :
  len a = n -> slice_from n (a ++ b) = b.
Proof.
  intros <-. unfold slice_from, len. rewrite Nat2Z.id, skipn_app, Nat.sub_diag.
  now rewrite skipn_all.
Qed.

Section BroadcastRoundTrip.

Context {pycoin : Pycoin} {ecdsa : Ecdsa} {text : Text}.

Variable modular_sqrt : Z -> Z -> Z.

Variable MAX_NULLDATA : Z.

(** X19. A broadcast message written by [add_broadcast_message] into a
    transaction without null-data output is read back by
    [get_broadcast_message] with the sender's address, the text and the
    signature [sign_data] made. The libraries are asked for what they are
    for: the signature has its 65 bytes, the address codec gives 20 bytes
    and reads them back, decompressing undoes compressing, decoding undoes
    encoding; and the frame of 98 bytes and the compressed text must fit
    the two-byte size prefix. *)
Theorem broadcast_message_read_back (testnet : bool) (tx : Tx) (message : string)
    (sender_key : Key.t) (dust_limit : Z) (signature : bytes) :
  SIZE_PREFIX_BYTES <= MAX_NULLDATA ->
  _get_nulldata_output tx = None ->
  sign_data modular_sqrt testnet (encode_utf8 message) sender_key = Ok signature ->
  len signature = 65 ->
  len (_address_to_hash160 testnet (Key.address sender_key)) = 20 ->
  _hash160_to_address testnet
    (_address_to_hash160 testnet (Key.address sender_key))
  = Key.address sender_key ->
  zlib_decompress (zlib_compress (encode_utf8 message) 9)
  = Ok (encode_utf8 message) ->
  decode_utf8 (encode_utf8 message) = Ok message ->
  65 + 13 + 20 + len (zlib_compress (encode_utf8 message) 9) <= 65535 ->
  exists tx',
    add_broadcast_message modular_sqrt MAX_NULLDATA testnet tx message sender_key
      dust_limit = (tx', None)
    /\ get_broadcast_message modular_sqrt testnet tx'
       = Ok (mkBroadcastMessage (Key.address sender_key) message signature).
Proof.
  intros Hmax Hnone Hsign Hsig Hhash Haddr Hzlib Hutf Hfit.
  assert (Hverify : verify_signature modular_sqrt testnet (Key.address sender_key)
                      signature (encode_utf8 message) = Ok true).
  { revert Hsign. unfold sign_data.
    destruct (sign_digest_deterministic _ _) as [sigdata|e]; cbn [bind];
      [|discriminate].
    intros H. apply sign_try_ids_inv in H.
    now destruct H as (_ & _ & _ & _ & H). }
  unfold add_broadcast_message. rewrite Hsign.
  set (hash160 := _address_to_hash160 testnet (Key.address sender_key)) in *.
  set (msg_data := zlib_compress (encode_utf8 message) 9) in *.
  set (data := ((signature ++ repeat x00 13) ++ hash160) ++ msg_data).
  assert (Hlen : len data = 65 + 13 + 20 + len msg_data).
  { unfold data, len in *. rewrite !length_app, repeat_length. lia. }
  rewrite add_data_blob_outputs by (assumption || lia).
  eexists. split; [reflexivity|].
  unfold get_broadcast_message.
  rewrite (get_data_blob_encoded MAX_NULLDATA _ data dust_limit (txs_out tx) []);
    [ | assumption | lia | assumption | cbn [txs_out]; now rewrite app_nil_r ].
  cbn [bind].
  pose proof (len_nonneg msg_data) as Hnn.
  destruct (Z.ltb_spec (len data) (65 + 13 + 20 + 0)) as [Hshort|_]; [lia|].
  unfold data. rewrite <- !app_assoc.
  rewrite (slice_to_app 65 signature) by exact Hsig.
  rewrite (slice_from_app 65 signature) by exact Hsig.
  rewrite (slice_from_app 13 (repeat x00 13)) by reflexivity.
  rewrite (slice_to_app 20 hash160) by exact Hhash.
  rewrite (slice_from_app 20 hash160) by exact Hhash.
  rewrite Haddr, Hzlib. cbn [bind].
  rewrite Hverify. cbn [bind negb]. rewrite Hutf. reflexivity.
Qed.

(** X20. A message that [get_broadcast_message] returns was checked: the
    transaction decodes to a blob of at least 98 bytes whose first 65 are
    the signature returned, whose bytes 78 to 98 give the address returned,
    and whose remainder decompresses to bytes that decode to the text
    returned; and [verify_signature] accepted the signature for that
    address and those bytes. The 13 bytes in between are not looked at. *)
Theorem get_broadcast_message_returns (testnet : bool) (tx : Tx)
    (m : BroadcastMessage) :
  get_broadcast_message modular_sqrt testnet tx = Ok m ->
  exists (data msg_data : bytes),
    get_data_blob tx = Ok data
    /\ 65 + 13 + 20 <= len data
    /\ message_signature m = slice_to 65 data
    /\ len (message_signature m) = 65
    /\ message_address m
       = _hash160_to_address testnet (slice_to 20 (slice_from 78 data))
    /\ zlib_decompress (slice_from 98 data) = Ok msg_data
    /\ decode_utf8 msg_data = Ok (message_text m)
    /\ verify_signature modular_sqrt testnet (message_address m)
         (message_signature m) msg_data = Ok true.
Proof.
  unfold get_broadcast_message.
  destruct (get_data_blob tx) as [data|e] eqn:Hblob;
    [|destruct e; discriminate].
  cbn [bind].
  destruct (Z.ltb_spec (len data) (65 + 13 + 20 + 0)) as [|Hlen]; [discriminate|].
  assert (H78 : slice_from 13 (slice_from 65 data) = slice_from 78 data).
  { unfold slice_from. rewrite skipn_skipn. reflexivity. }
  assert (H98 : slice_from 20 (slice_from 78 data) = slice_from 98 data).
  { unfold slice_from. rewrite skipn_skipn. reflexivity. }
  rewrite H78, H98.
  destruct (zlib_decompress (slice_from 98 data)) as [msg_data|e] eqn:Hzlib;
    cbn [bind]; [|discriminate].
  destruct (verify_signature _ _ _ _ _) as [[|]|e] eqn:Hverify; cbn [bind negb];
    [|discriminate|discriminate].
  destruct (decode_utf8 msg_data) as [message|e] eqn:Hutf; cbn [bind];
    [|discriminate].
  intros H. injection H as <-. exists data, msg_data.
  cbn [message_address message_text message_signature].
  repeat split; try assumption; try lia.
  unfold slice_to, len in *. rewrite length_firstn. lia.
Qed.

End BroadcastRoundTrip.

Lemma broadcast_message_read_back_witness :
  exists tx',
    @add_broadcast_message Double.plain_pycoin Double.small_ecdsa
      Double.plain_text Double.sqrt_mod 40 false empty_tx "hello" (Double.key 5) 548
    = (tx', None)
    /\ @get_broadcast_message Double.plain_pycoin Double.small_ecdsa
         Double.plain_text Double.sqrt_mod false tx'
       = Ok (mkBroadcastMessage (Key.address (Double.key 5)) "hello"
               (_add_recovery_params 1 true (Double.sigencode 176 171))).
Proof.
  apply (@broadcast_message_read_back Double.plain_pycoin Double.small_ecdsa
           Double.plain_text Double.sqrt_mod 40 false empty_tx "hello"
           (Double.key 5) 548
           (_add_recovery_params 1 true (Double.sigencode 176 171)));
    vm_compute; (reflexivity || discriminate).
Defined.

Lemma get_broadcast_message_returns_witness :
  let tx := fst (@add_broadcast_message Double.plain_pycoin Double.small_ecdsa
                   Double.plain_text Double.sqrt_mod 40 false empty_tx "hello"
                   (Double.key 5) 548) in
  let m := mkBroadcastMessage (Key.address (Double.key 5)) "hello"
             (_add_recovery_params 1 true (Double.sigencode 176 171)) in
  exists (data msg_data : bytes),
    get_data_blob tx = Ok data
    /\ 65 + 13 + 20 <= len data
    /\ message_signature m = slice_to 65 data
    /\ len (message_signature m) = 65
    /\ message_address m
       = @_hash160_to_address Double.plain_pycoin false
           (slice_to 20 (slice_from 78 data))
    /\ @zlib_decompress Double.plain_text (slice_from 98 data) = Ok msg_data
    /\ @decode_utf8 Double.plain_text msg_data = Ok (message_text m)
    /\ @verify_signature Double.plain_pycoin Double.small_ecdsa Double.sqrt_mod
         false (message_address m) (message_signature m) msg_data = Ok true.
Proof.
  cbv zeta.
  apply (@get_broadcast_message_returns Double.plain_pycoin Double.small_ecdsa
           Double.plain_text Double.sqrt_mod false).
  vm_compute. reflexivity.
Defined.

Lemma sign_data_raises_witness :
  @sign_data Double.plain_pycoin Double.small_ecdsa Double.sqrt_mod false
    (ascii_bytes "hello") (Key.mk (Key.address (Double.key 7)) 5)
  = Raise (Exception_ "Failed to serialize signature!").
Proof.
  apply (proj1 (@sign_data_raises Double.plain_pycoin Double.small_ecdsa
                  Double.sqrt_mod false (ascii_bytes "hello")
                  (Key.mk (Key.address (Double.key 7)) 5)
                  (Double.sigencode 176 171) ltac:(vm_compute; reflexivity))).
  repeat constructor; vm_compute; reflexivity.
Defined.

(** ** Preparing the spendables of a split *)

Lemma filter_filter {A} (f g : A -> bool) (l : list A) :
  filter g (filter f l) = filter (fun a => f a && g a) l.
Proof.
  induction l as [|a l IH]; [reflexivity|]. cbn [filter].
  destruct (f a); cbn [filter andb]; [destruct (g a)|]; now rewrite IH.
Qed.

(** X21. [_filter_dust] keeps exactly the spendables worth more than the
    fee and more than the limit, each as often as it was given, and gives
    them in ascending order of value. *)
Theorem filter_dust_kept_sorted (spendables : list Spendable.t) (fee limit : Z) :
  Permutation (_filter_dust spendables fee limit)
    (filter (fun s => (Spendable.coin_value s >? fee)
                      && (Spendable.coin_value s >? limit)) spendables)
  /\ Sorted (fun a b => Spendable.coin_value a <= Spendable.coin_value b)
       (_filter_dust spendables fee limit)
  /\ (forall s,
        In s (_filter_dust spendables fee limit)
        <-> In s spendables
            /\ fee < Spendable.coin_value s /\ limit < Spendable.coin_value s).
Proof.
  unfold _filter_dust. rewrite filter_filter. split; [apply sorted_Permutation|].
  split; [apply (sorted_Sorted Spendable.coin_value false)|].
  intros s. rewrite sorted_In, filter_In, andb_true_iff, !Z.gtb_lt. tauto.
Qed.

Lemma take_loop_prefixes (maxinput : Z) (stack inputs : list Spendable.t) :
  exists taken left,
    take_loop maxinput stack inputs = (inputs ++ taken, left)
    /\ stack = taken ++ left
    /\ (maxinput < value_of (inputs ++ taken) \/ left = [])
    /\ (forall k, (k < length taken)%nat ->
        value_of (inputs ++ firstn k taken) <= maxinput).
Proof.
  revert inputs. induction stack as [|s stack IH]; intros inputs.
  - exists [], []. cbn [take_loop]. rewrite app_nil_r.
    destruct (_ >? _); repeat split; auto; cbn [length]; lia.
  - cbn [take_loop]. fold (value_of inputs).
    destruct (Z.gtb_spec (value_of inputs) maxinput) as [Hgt|Hle].
    + exists [], (s :: stack). rewrite app_nil_r.
      repeat split; auto; cbn [length]; lia.
    + destruct (IH (inputs ++ [s])) as (taken & left & Hloop & Hstack & Hend & Hpre).
      exists (s :: taken), left. rewrite Hloop, <- !app_assoc. cbn [app].
      rewrite <- app_assoc in Hend. cbn [app] in Hend.
      repeat split; auto; [now rewrite Hstack|].
      intros [|k] Hk; cbn [firstn].
      * now rewrite app_nil_r.
      * cbn [length] in Hk. specialize (Hpre k ltac:(lia)).
        rewrite <- app_assoc in Hpre. exact Hpre.
Qed.

(** X22. [_take_txins] pops spendables off the end of the list, one after
    the other, for as long as those taken are worth no more than
    [limit * max_outputs + fee] and the list is not empty: the list is left
    with the untaken front part, the inputs returned spend the taken ones
    in the order they were popped, and the total returned is their value. *)
Theorem take_txins_from_end (spendables : list Spendable.t)
    (limit max_outputs fee : Z) :
  exists taken,
    _take_txins spendables limit max_outputs fee
    = (map spend taken, value_of taken,
       firstn (length spendables - length taken) spendables)
    /\ rev taken = skipn (length spendables - length taken) spendables
    /\ (limit * max_outputs + fee < value_of taken
        \/ length taken = length spendables)
    /\ (forall k, (k < length taken)%nat ->
        value_of (firstn k taken) <= limit * max_outputs + fee).
Proof.
  unfold _take_txins.
  destruct (take_loop_prefixes (limit * max_outputs + fee) (rev spendables) [])
    as (taken & left & Hloop & Hstack & Hend & Hpre).
  rewrite Hloop. cbn [app] in *. exists taken.
  assert (Hsp : spendables = rev left ++ rev taken)
    by (rewrite <- rev_app_distr, <- Hstack; now rewrite rev_involutive).
  clear Hloop Hstack. subst spendables.
  assert (Hlen : (length (rev left ++ rev taken) - length taken)%nat
                 = length (rev left))
    by (rewrite length_app, !length_rev; lia).
  rewrite Hlen.
  rewrite firstn_app, Nat.sub_diag, firstn_all, skipn_app, Nat.sub_diag, skipn_all.
  cbn [firstn skipn app]. rewrite app_nil_r.
  repeat split; auto.
  destruct Hend as [Hgt| ->]; [now left | right].
  rewrite length_app, !length_rev. cbn [length]. lia.
Qed.

(** ** The outcome of _outputs *)

Section OutputsFacts.

Context {service : Service} {pycoin : Pycoin}.

(** X23. With a positive limit and at least one output allowed, [_outputs]
    fails when the inputs do not pay for one output of [limit] after the
    fee: it raises [ZeroDivisionError], the output count being 0, when
    [0 <= inputs_total - fee < limit], and [AssertionError], no output
    being built, when [inputs_total - fee] is negative. *)
Theorem outputs_too_little (testnet : bool)
    (inputs_total fee max_outputs limit : Z) (key : Key.t) :
  0 < limit -> 1 <= max_outputs ->
  (0 <= inputs_total - fee < limit ->
   _outputs testnet inputs_total fee max_outputs limit key
   = Raise ZeroDivisionError)
  /\ (inputs_total - fee < 0 ->
      _outputs testnet inputs_total fee max_outputs limit key
      = Raise AssertionError).
Proof.
  intros Hlimit Hmax. unfold _outputs.
  set (txouts_total := inputs_total - fee). split; intros Htotal.
  - destruct (Z.gtb_spec txouts_total (max_outputs * limit)) as [Hgt|_]; [nia|].
    unfold floordiv at 1. destruct (Z.eqb_spec limit 0); [lia|]. cbn [bind].
    rewrite Z.div_small by lia. reflexivity.
  - destruct (Z.gtb_spec txouts_total (max_outputs * limit)) as [Hgt|_]; [nia|].
    unfold floordiv at 1. destruct (Z.eqb_spec limit 0); [lia|]. cbn [bind].
    assert (Hcnt : txouts_total / limit < 0)
      by (apply Z.div_lt_upper_bound; lia).
    unfold floordiv. destruct (Z.eqb_spec (txouts_total / limit) 0); [lia|].
    cbn [bind]. rewrite range_nonpos by lia. cbn [map]. rewrite sum_nil.
    destruct (Z.eqb_spec txouts_total 0); [lia | reflexivity].
Qed.

(** X24. [split_utxos] builds at most one transaction for every spendable
    that passes [_filter_dust]: each pass takes at least one of them, for
    parameters with [fee + 2 * limit > 0] and
    [limit * max_outputs + fee >= 0]. *)
Theorem split_utxos_count (testnet : bool) (key : Key.t)
    (limit fee max_outputs : Z) (publish : bool) (fuel : nat)
    (spendables : list Spendable.t) (txids : list bytes) :
  0 < fee + limit * 2 ->
  0 <= limit * max_outputs + fee ->
  split_utxos fuel testnet key spendables limit fee max_outputs publish
  = Some (Ok txids) ->
  (length txids <= length (_filter_dust spendables fee limit))%nat.
Proof.
  intros Hpos Hmax. revert spendables txids.
  induction fuel as [|fuel IH]; intros spendables txids; [discriminate|].
  cbn [split_utxos].
  set (filtered := _filter_dust spendables fee limit) in *.
  destruct (_enough_to_split filtered fee limit) eqn:Henough; cbn [negb].
  - pose proof (take_txins_rest_shorter filtered limit max_outputs fee Hmax
                  (enough_to_split_nonempty _ _ _ Hpos Henough)) as Hrest.
    destruct (_take_txins filtered limit max_outputs fee) as [[txins total] rest].
    destruct (_outputs testnet total fee max_outputs limit key) as [txouts|e];
      [|discriminate].
    destruct (create_tx testnet txins txouts 0 [key] publish) as [tx|e];
      [|discriminate].
    destruct (split_utxos fuel testnet key rest limit fee max_outputs publish)
      as [[more|e]|] eqn:Hrec; try discriminate.
    intros H. injection H as <-. cbn [length].
    specialize (IH rest more Hrec).
    pose proof (filter_dust_length rest fee limit). lia.
  - intros H. injection H as <-. cbn [length]. lia.
Qed.

End OutputsFacts.

Lemma outputs_too_little_witness :
  @_outputs Double.plain_pycoin false 25000 10000 2 20000 Double.key1
  = Raise ZeroDivisionError
  /\ @_outputs Double.plain_pycoin false 5000 10000 2 20000 Double.key1
     = Raise AssertionError.
Proof.
  split.
  - apply (proj1 (@outputs_too_little Double.plain_pycoin false 25000 10000 2 20000
                    Double.key1 ltac:(lia) ltac:(lia))). lia.
  - apply (proj2 (@outputs_too_little Double.plain_pycoin false 5000 10000 2 20000
                    Double.key1 ltac:(lia) ltac:(lia))). lia.
Defined.

Lemma split_utxos_count_witness :
  Nat.le (length [num_to_bytes 4 60000; num_to_bytes 4 70000])
    (length (_filter_dust
               (map Double.spendable [30000; 10000; 50000; 20001; 20001; 70000])
               10000 20000)).
Proof.
  apply (@split_utxos_count (Double.fixed_service []) Double.plain_pycoin false
           Double.key1 20000 10000 2 true 7
           (map Double.spendable [30000; 10000; 50000; 20001; 20001; 70000])
           [num_to_bytes 4 60000; num_to_bytes 4 70000]);
    [lia | lia | vm_compute; reflexivity].
Defined.

(** ** Single outputs, written and read back *)

(** X25. The two kinds of output are read back as written. In a
    transaction without null-data output, [add_nulldata_output] of the
    output made for some bytes succeeds and [get_nulldata] then gives the
    position of that output, the number of outputs there were, and the
    bytes. For 20 bytes, [get_hash160_data] at the position where
    [add_hash160data_output] put the output made for them gives the
    20 bytes. *)
Theorem single_output_roundtrips (tx : Tx) :
  (forall data : bytes,
     _get_nulldata_output tx = None ->
     exists tx',
       add_nulldata_output tx (nulldata_txout (serialize_data data)) = (tx', None)
       /\ get_nulldata tx' = Ok (len (txs_out tx), data))
  /\ (forall (data : bytes) (dust_limit : Z),
        len data = 20 ->
        get_hash160_data
          (add_hash160data_output tx
             (hash160data_txout (serialize_data data) dust_limit))
          (len (txs_out tx))
        = Ok data).
Proof.
  split.
  - intros data Hnone. unfold add_nulldata_output. rewrite Hnone.
    eexists. split; [reflexivity|]. unfold append_out.
    now apply get_nulldata_appended.
  - intros data dust_limit Hlen.
    assert (Hc : (length data <= 20)%nat) by (unfold len in Hlen; lia).
    assert (Hout : hash160data_txout (serialize_data data) dust_limit
                   = chunk_txout dust_limit data).
    { unfold chunk_txout. rewrite pad_hexdata_serialize by exact Hc.
      replace (20 - length data)%nat with 0%nat by (unfold len in Hlen; lia).
      cbn [Nat.mul repeat]. now rewrite app_nil_r. }
    unfold get_hash160_data, add_hash160data_output, append_out, index_list, len.
    cbn [txs_out]. rewrite Nat2Z.id, nth_error_app2, Nat.sub_diag by lia.
    cbn [nth_error bind]. rewrite Hout, chunk_txout_data by exact Hc.
    unfold pad_chunk.
    replace (20 - length data)%nat with 0%nat by (unfold len in Hlen; lia).
    cbn [repeat]. now rewrite app_nil_r.
Qed.

(** ** The point a public key is recovered from *)

Section RecoveryFacts.

Context {ecdsa : Ecdsa}.

Variable modular_sqrt : Z -> Z -> Z.

(** X26. For an odd field prime, the point [R] that [_recover_public_key]
    asks python-ecdsa to build has the x coordinate [r], moved up by the
    order for the recovery ids 2 and 3, and as y coordinate the square root
    or its opposite modulo the prime, whichever has the parity of the
    recovery id; the key is then [r^-1 (s R + (-e mod order) G)]. *)
Theorem recover_public_key_point (G : point) (order r s i e : Z) :
  curve_p mod 2 = 1 ->
  0 <= i <= 3 ->
  let x := if i <? 2 then r else r + order in
  let beta := modular_sqrt ((x * x * x + curve_a * x + curve_b) mod curve_p)
                curve_p in
  exists y,
    (y = beta \/ y = curve_p - beta)
    /\ y mod 2 = i mod 2
    /\ _recover_public_key modular_sqrt G order r s i e
       = (R <- Point x y order ;;
          rInv <- inverse_mod r order ;;
          Ok (point_mul rInv
                (point_add (point_mul s R) (point_mul ((- e) mod order) G)))).
Proof.
  intros Hodd Hi. cbv zeta. unfold _recover_public_key.
  assert (Hx : r + i / 2 * order = if i <? 2 then r else r + order).
  { destruct (Z.ltb_spec i 2).
    - rewrite Z.div_small by lia. lia.
    - replace (i / 2) with 1; [lia|].
      apply Z.div_unique with (r := i - 2); lia. }
  rewrite Hx.
  set (x := if i <? 2 then r else r + order).
  set (beta := modular_sqrt ((x * x * x + curve_a * x + curve_b) mod curve_p)
                 curve_p).
  destruct (Z.eqb_spec ((beta - i) mod 2) 0) as [Heven|Hoddy].
  - exists beta. split; [now left|]. split; [|reflexivity].
    pose proof (Z.mod_pos_bound beta 2 eq_refl).
    pose proof (Z.mod_pos_bound i 2 eq_refl).
    rewrite Zminus_mod in Heven.
    pose proof (Z.mod_pos_bound (beta mod 2 - i mod 2) 2 eq_refl).
    assert (Hcases : beta mod 2 - i mod 2 = 0 \/ beta mod 2 - i mod 2 = 1
                     \/ beta mod 2 - i mod 2 = -1) by lia.
    destruct Hcases as [Hzero | [Hone | Hminus]]; [lia | |];
      [rewrite Hone in Heven | rewrite Hminus in Heven]; discriminate Heven.
  - exists (curve_p - beta). split; [now right|]. split; [|reflexivity].
    pose proof (Z.mod_pos_bound beta 2 eq_refl).
    pose proof (Z.mod_pos_bound i 2 eq_refl).
    rewrite Zminus_mod in Hoddy. rewrite Zminus_mod, Hodd.
    assert (Hcases : beta mod 2 = 0 \/ beta mod 2 = 1) by lia.
    assert (Hcases' : i mod 2 = 0 \/ i mod 2 = 1) by lia.
    destruct Hcases as [Hb | Hb], Hcases' as [Hi' | Hi'];
      rewrite Hb, Hi' in *; try reflexivity; exfalso; apply Hoddy; reflexivity.
Qed.

End RecoveryFacts.

Lemma single_output_roundtrips_witness :
  get_nulldata (fst (add_nulldata_output empty_tx
                       (nulldata_txout (serialize_data (ascii_bytes "note")))))
  = Ok (0, ascii_bytes "note")
  /\ get_hash160_data
       (add_hash160data_output empty_tx
          (hash160data_txout (serialize_data (repeat x07 20)) 548)) 0
     = Ok (repeat x07 20).
Proof.
  destruct (single_output_roundtrips empty_tx) as [Hnull Hhash].
  split.
  - destruct (Hnull (ascii_bytes "note") eq_refl) as (tx' & Hadd & Hget).
    rewrite Hadd. exact Hget.
  - exact (Hhash (repeat x07 20) 548 eq_refl).
Defined.

Lemma recover_public_key_point_witness :
  exists y,
    (y = Double.sqrt_mod ((176 * 176 * 176 + 0 * 176 + 7) mod 211) 211
     \/ y = 211 - Double.sqrt_mod ((176 * 176 * 176 + 0 * 176 + 7) mod 211) 211)
    /\ y mod 2 = 1 mod 2
    /\ @_recover_public_key Double.small_ecdsa Double.sqrt_mod Double.G Double.n
         176 171 1 106
       = (R <- Double.new_point 176 y Double.n ;;
          rInv <- Double.inv_mod 176 Double.n ;;
          Ok (Double.mul rInv
                (Double.add (Double.mul 171 R)
                   (Double.mul ((- 106) mod Double.n) Double.G)))).
Proof.
  apply (@recover_public_key_point Double.small_ecdsa Double.sqrt_mod Double.G
           Double.n 176 171 1 106); [reflexivity | lia].
Defined.

(** ** The exceptions of get_broadcast_message *)

Section BroadcastErrors.

Context {pycoin : Pycoin} {ecdsa : Ecdsa} {text : Text}.

Variable modular_sqrt : Z -> Z -> Z.

(** X27. What [get_broadcast_message] can raise: [NoBroadcastMessage]; the
    error of [h2b] on a script that is not hex text, which comes out of
    [get_data_blob] and is not caught; and whatever [zlib.decompress],
    [verify_signature] or the UTF-8 decoder raise, none of which is caught
    either. [NoDataBlob] never leaves it. *)
Theorem get_broadcast_message_raises (testnet : bool) (tx : Tx) (e : exn) :
  get_broadcast_message modular_sqrt testnet tx = Raise e ->
  e = NoBroadcastMessage
  \/ e = BinasciiError
  \/ (exists data, zlib_decompress data = Raise e)
  \/ (exists address sig data,
        verify_signature modular_sqrt testnet address sig data = Raise e)
  \/ (exists data, decode_utf8 data = Raise e).
Proof.
  unfold get_broadcast_message.
  destruct (get_data_blob tx) as [data|e'] eqn:Hblob.
  - cbn [bind]. destruct (len data <? _); [intros H; injection H as <-; now left|].
    destruct (zlib_decompress _) as [msg_data|e'] eqn:Hzlib; cbn [bind].
    + destruct (verify_signature _ _ _ _ _) as [ok|e'] eqn:Hverify; cbn [bind].
      * destruct ok; cbn [negb]; [|intros H; injection H as <-; now left].
        destruct (decode_utf8 msg_data) as [message|e'] eqn:Hutf; cbn [bind];
          [discriminate|].
        intros H. injection H as <-. do 4 right. eauto.
      * intros H. injection H as <-. do 3 right. left. eauto.
    + intros H. injection H as <-. do 2 right. left. eauto.
  - destruct (get_data_blob_raise_cases tx e' Hblob) as [-> | ->]; cbn [bind];
      intros H; injection H as <-; [now left | right; now left].
Qed.

End BroadcastErrors.

Lemma get_broadcast_message_raises_witness :
  BinasciiError = NoBroadcastMessage
  \/ BinasciiError = BinasciiError
  \/ (exists data, @zlib_decompress Double.plain_text data = Raise BinasciiError)
  \/ (exists address sig data,
        @verify_signature Double.plain_pycoin Double.small_ecdsa Double.sqrt_mod
          false address sig data = Raise BinasciiError)
  \/ (exists data, @decode_utf8 Double.plain_text data = Raise BinasciiError).
Proof.
  apply (@get_broadcast_message_raises Double.plain_pycoin Double.small_ecdsa
           Double.plain_text Double.sqrt_mod false
           (mkTx 1 [] [mkTxOut 0 (txt "OP_RETURN 0")] 0) BinasciiError).
  vm_compute. reflexivity.
Defined.
